(** * osxkeychain: the macOS keychain back end of docker-credential-helpers

    A shallow embedding of [osxkeychain/osxkeychain_darwin.go] and of the
    library functions it calls, followed by the properties of the
    natural-language specification.

    - Go strings are byte strings: [string] (a list of 8-bit [ascii]).
    - The Go standard library functions the file calls ([regexp], [net/url],
      [strconv]) are embedded as executable functions.
    - The four C primitives declared in [osxkeychain_darwin.h] are a
      signature of foreign calls; the Go methods are programs over that
      signature, run against a handler that plays the platform. *)

From Stdlib Require Import ZArith Ascii String List Lia Bool.
From stdpp Require Import gmap strings list.

Local Open Scope string_scope.

(* stdpp blocks the reduction of string concatenation; the proofs below
   compute with it. *)
Local Arguments String.append !s1 s2 /.

(** ** Bytes and Go's [strings] package *)

Definition byte_val (c : ascii) : Z := Z.of_N (N_of_ascii c).

(** ['lo' <= c && c <= 'hi'] *)
Definition between (lo c hi : ascii) : bool :=
  (byte_val lo <=? byte_val c)%Z && (byte_val c <=? byte_val hi)%Z.

Definition is_letter (c : ascii) : bool := between "a" c "z" || between "A" c "Z".
Definition is_digit (c : ascii) : bool := between "0" c "9".

Definition one_of (cs : string) (c : ascii) : bool :=
  existsb (Ascii.eqb c) (list_ascii_of_string cs).

Module Strings.

(** [s[:n]] and [s[n:]] *)
Fixpoint take (n : nat) (s : string) : string :=
  match n, s with
  | S n', String c s' => String c (take n' s')
  | _, _ => ""
  end.

Fixpoint drop (n : nat) (s : string) : string :=
  match n, s with
  | S n', String _ s' => drop n' s'
  | _, _ => s
  end.

Definition HasPrefix (s pre : string) : bool := String.prefix pre s.

Definition HasSuffix (s suf : string) : bool :=
  (String.length suf <=? String.length s)%nat
  && String.eqb (drop (String.length s - String.length suf) s) suf.

(** [strings.Index]: position of the first occurrence, [None] for Go's -1. *)
Fixpoint Index (s sep : string) : option nat :=
  if String.prefix sep s then Some 0%nat
  else match s with
       | "" => None
       | String _ s' => option_map S (Index s' sep)
       end.

(** [strings.LastIndex]: position of the last occurrence. *)
Fixpoint LastIndex (s sep : string) : option nat :=
  match s with
  | "" => if String.prefix sep s then Some 0%nat else None
  | String _ s' =>
      match LastIndex s' sep with
      | Some i => Some (S i)
      | None => if String.prefix sep s then Some 0%nat else None
      end
  end.

Definition Contains (s sub : string) : bool :=
  match Index s sub with Some _ => true | None => false end.

(** [strings.Count] for a one-byte separator. *)
Fixpoint CountByte (s : string) (c : ascii) : nat :=
  match s with
  | "" => 0
  | String d s' => (if Ascii.eqb c d then 1 else 0) + CountByte s' c
  end.

(** [strings.Cut]: [(before, after, found)]. *)
Definition Cut (s sep : string) : string * string * bool :=
  match Index s sep with
  | Some i => (take i s, drop (i + String.length sep) s, true)
  | None => (s, "", false)
  end.

Definition lower (c : ascii) : ascii :=
  if between "A" c "Z" then ascii_of_N (N_of_ascii c + 32) else c.

(** [strings.ToLower] on the bytes below 0x80; [url.Parse] applies it to a
    scheme, which [getScheme] restricts to ASCII letters, digits and
    [+-.]. *)
Fixpoint ToLower (s : string) : string :=
  match s with
  | "" => ""
  | String c s' => String (lower c) (ToLower s')
  end.

End Strings.

(** ** Package [regexp]: the fragment the pattern of [splitServer] uses

    Character classes, concatenation, alternation and repetition, matched
    with Brzozowski derivatives.  [MatchString] is Go's unanchored search;
    every pattern here starts with [^], so the search is for a prefix. *)

Module regexp.

Inductive re : Type :=
| Empty                       (* matches nothing *)
| Eps                         (* matches the empty string *)
| Class (p : ascii -> bool)   (* [..] and literal bytes *)
| Seq (r1 r2 : re)
| Alt (r1 r2 : re)
| Star (r : re).

Definition Lit (c : ascii) : re := Class (Ascii.eqb c).
Definition Opt (r : re) : re := Alt r Eps.       (* r? *)
Definition Plus (r : re) : re := Seq r (Star r). (* r+ *)

Fixpoint nullable (r : re) : bool :=
  match r with
  | Empty => false
  | Eps => true
  | Class _ => false
  | Seq r1 r2 => nullable r1 && nullable r2
  | Alt r1 r2 => nullable r1 || nullable r2
  | Star _ => true
  end.

Fixpoint deriv (c : ascii) (r : re) : re :=
  match r with
  | Empty => Empty
  | Eps => Empty
  | Class p => if p c then Eps else Empty
  | Seq r1 r2 =>
      if nullable r1 then Alt (Seq (deriv c r1) r2) (deriv c r2)
      else Seq (deriv c r1) r2
  | Alt r1 r2 => Alt (deriv c r1) (deriv c r2)
  | Star r1 => Seq (deriv c r1) (Star r1)
  end.

(** [regexp.MustCompile("^" + r).MatchString(s)]: some prefix of [s]
    matches [r]. *)
Fixpoint MatchString (r : re) (s : string) : bool :=
  nullable r ||
  match s with
  | "" => false
  | String c s' => MatchString (deriv c r) s'
  end.

(** The words of a pattern, for reasoning about [MatchString]. *)
Inductive lang : re -> string -> Prop :=
| lang_eps : lang Eps ""
| lang_class p c : p c = true -> lang (Class p) (String c "")
| lang_seq r1 r2 w1 w2 : lang r1 w1 -> lang r2 w2 -> lang (Seq r1 r2) (w1 ++ w2)
| lang_alt_l r1 r2 w : lang r1 w -> lang (Alt r1 r2) w
| lang_alt_r r1 r2 w : lang r2 w -> lang (Alt r1 r2) w
| lang_star_nil r : lang (Star r) ""
| lang_star_cons r w1 w2 :
    lang r w1 -> lang (Star r) w2 -> lang (Star r) (w1 ++ w2).

End regexp.

(** [[a-zA-Z]] *)
Definition scheme_first : regexp.re := regexp.Class is_letter.

(** [[-+.a-zA-Z0-9]] *)
Definition scheme_char (c : ascii) : bool :=
  one_of "-+." c || is_letter c || is_digit c.

(** [[a-zA-Z][-+.a-zA-Z0-9]+:] *)
Definition scheme_colon : regexp.re :=
  regexp.Seq scheme_first
    (regexp.Seq (regexp.Plus (regexp.Class scheme_char)) (regexp.Lit ":")).

(** [//] *)
Definition slashes : regexp.re := regexp.Seq (regexp.Lit "/") (regexp.Lit "/").

(** The pattern of [splitServer], without its leading [^]:
    [([a-zA-Z][-+.a-zA-Z0-9]+:)?//] *)
Definition schemeRE : regexp.re := regexp.Seq (regexp.Opt scheme_colon) slashes.

(** The same pattern with its group made mandatory,
    [^[a-zA-Z][-+.a-zA-Z0-9]+://]: whether a string starts with a scheme
    prefix. *)
Definition hasSchemePrefix (s : string) : bool :=
  regexp.MatchString (regexp.Seq scheme_colon slashes) s.

(** Whether every byte of a string satisfies [p]. *)
Fixpoint all_chars (p : ascii -> bool) (s : string) : bool :=
  match s with
  | "" => true
  | String c s' => p c && all_chars p s'
  end.

(** ** Go errors

    The error values that can reach a caller of this package.  Go compares
    errors by identity; here an error is identified by what it carries. *)

Inductive error : Type :=
| errors_New (msg : string)                       (* errors.New(msg) *)
| fmt_Errorf (format arg : string)                (* fmt.Errorf(format, arg) *)
| url_EscapeError (s : string)                    (* url.EscapeError(s) *)
| url_InvalidHostError (s : string)               (* url.InvalidHostError(s) *)
| url_Error (Op URL : string) (Err : error)       (* &url.Error{Op, URL, Err} *)
| strconv_NumError (Func Num : string) (Err : error) (* &strconv.NumError{..} *)
| credentials_errCredentialsNotFound.             (* credentials.errCredentialsNotFound{} *)

(** A Go result [(T, error)] of which exactly one component is meaningful. *)
Inductive result (A : Type) : Type :=
| Ok (a : A)
| Err (e : error).
Arguments Ok {A} a.
Arguments Err {A} e.

Definition is_ok {A} (r : result A) : bool :=
  match r with Ok _ => true | Err _ => false end.

Notation "'let?' x ':=' e 'in' k" :=
  (match e with Ok x => k | Err err => Err err end)
  (at level 10, x pattern, e at level 200, k at level 200).

(** ** Package [net/url]: [Parse], [Hostname], [Port]

    Follows [net/url] of Go 1.20.  Two fields of [URL] that no code here reads
    and that never make [Parse] fail, [RawPath] and [RawFragment] (the
    "encoding hints"), are left out. *)

Module url.

Record Userinfo : Type := mkUserinfo {
  username : string;
  password : string;
  passwordSet : bool
}.

Record URL : Type := mkURL {
  Scheme : string;
  Opaque : string;
  User : option Userinfo;
  Host : string;
  Path : string;
  OmitHost : bool;
  ForceQuery : bool;
  RawQuery : string;
  Fragment : string
}.

Inductive encoding : Type :=
| encodePath | encodePathSegment | encodeHost | encodeZone
| encodeUserPassword | encodeQueryComponent | encodeFragment.

Definition is_host_mode (mode : encoding) : bool :=
  match mode with encodeHost | encodeZone => true | _ => false end.

Definition ishex (c : ascii) : bool :=
  is_digit c || between "a" c "f" || between "A" c "F".

Definition unhex (c : ascii) : Z :=
  if is_digit c then byte_val c - byte_val "0"
  else if between "a" c "f" then byte_val c - byte_val "a" + 10
  else if between "A" c "F" then byte_val c - byte_val "A" + 10
  else 0.

(** [unhex(a)<<4 | unhex(b)] *)
Definition hex_byte (a b : ascii) : ascii :=
  ascii_of_N (Z.to_N (Z.lor (Z.shiftl (unhex a) 4) (unhex b))).

Definition shouldEscape (c : ascii) (mode : encoding) : bool :=
  if is_letter c || is_digit c then false
  else if is_host_mode mode
        && (one_of "!$&'()*+,;=:[]<>" c || Ascii.eqb c "034") then false
  else if one_of "-_.~" c then false
  else if one_of "$&+,/:;=?@" c then
    match mode with
    | encodePath => Ascii.eqb c "?"
    | encodePathSegment => one_of "/;,?" c
    | encodeUserPassword => one_of "@/?:" c
    | encodeQueryComponent => true
    | encodeFragment => false
    | encodeHost | encodeZone => true
    end
  else if match mode with encodeFragment => one_of "!()*" c | _ => false end
  then false
  else true.

(** First loop of [unescape]: check the escapes and, for a host, the
    bytes.  [None] when the string is well formed. *)
Fixpoint unescape_check (s : string) (mode : encoding) : option error :=
  match s with
  | "" => None
  | String "%" rest =>
      match rest with
      | String a (String b rest') =>
          if negb (ishex a) || negb (ishex b) then
            Some (url_EscapeError (Strings.take 3 s))
          else if match mode with encodeHost => true | _ => false end
                  && (unhex a <? 8)%Z
                  && negb (String.eqb (Strings.take 3 s) "%25")
          then Some (url_EscapeError (Strings.take 3 s))
          else if match mode with encodeZone => true | _ => false end
                  && negb (String.eqb (Strings.take 3 s) "%25")
                  && negb (Ascii.eqb (hex_byte a b) " ")
                  && shouldEscape (hex_byte a b) encodeHost
          then Some (url_EscapeError (Strings.take 3 s))
          else unescape_check rest' mode
      | _ => Some (url_EscapeError (Strings.take 3 s))
      end
  | String "+" rest => unescape_check rest mode
  | String c rest =>
      if is_host_mode mode && (byte_val c <? 128)%Z && shouldEscape c encodeHost
      then Some (url_InvalidHostError (String c ""))
      else unescape_check rest mode
  end.

(** Second loop of [unescape]: decode. *)
Fixpoint unescape_decode (s : string) (mode : encoding) : string :=
  match s with
  | "" => ""
  | String "%" (String a (String b rest)) =>
      String (hex_byte a b) (unescape_decode rest mode)
  | String "+" rest =>
      String (match mode with encodeQueryComponent => " " | _ => "+" end)%char
             (unescape_decode rest mode)
  | String c rest => String c (unescape_decode rest mode)
  end.

Definition unescape (s : string) (mode : encoding) : result string :=
  match unescape_check s mode with
  | Some e => Err e
  | None => Ok (unescape_decode s mode)
  end.

(** [b < ' ' || b == 0x7f] for some byte *)
Fixpoint stringContainsCTLByte (s : string) : bool :=
  match s with
  | "" => false
  | String c s' =>
      (byte_val c <? 32)%Z || (byte_val c =? 127)%Z || stringContainsCTLByte s'
  end.

(** The loop of [getScheme] over [s = rawURL[i:]]; [i0] is [i == 0] and
    [acc] is [rawURL[:i]]. *)
Fixpoint getScheme_loop (rawURL s acc : string) (i0 : bool)
  : result (string * string) :=
  match s with
  | "" => Ok ("", rawURL)
  | String c s' =>
      if is_letter c then getScheme_loop rawURL s' (acc ++ String c "") false
      else if is_digit c || one_of "+-." c then
        if i0 then Ok ("", rawURL)
        else getScheme_loop rawURL s' (acc ++ String c "") false
      else if Ascii.eqb c ":" then
        if i0 then Err (errors_New "missing protocol scheme")
        else Ok (acc, s')
      else Ok ("", rawURL)
  end.

Definition getScheme (rawURL : string) : result (string * string) :=
  getScheme_loop rawURL rawURL "" true.

Fixpoint all_digits (s : string) : bool :=
  match s with
  | "" => true
  | String c s' => is_digit c && all_digits s'
  end.

Definition validOptionalPort (port : string) : bool :=
  match port with
  | "" => true
  | String c rest => Ascii.eqb c ":" && all_digits rest
  end.

Fixpoint validUserinfo (s : string) : bool :=
  match s with
  | "" => true
  | String c s' =>
      (is_letter c || is_digit c || one_of "-._:~!$&'()*+,;=%@" c)
      && validUserinfo s'
  end.

Definition parseHost (host : string) : result string :=
  if Strings.HasPrefix host "[" then
    match Strings.LastIndex host "]" with
    | None => Err (errors_New "missing ']' in host")
    | Some i =>
        let colonPort := Strings.drop (i + 1) host in
        if negb (validOptionalPort colonPort) then
          Err (fmt_Errorf "invalid port %q after host" colonPort)
        else
          match Strings.Index (Strings.take i host) "%25" with
          | Some zone =>
              let? host1 := unescape (Strings.take zone host) encodeHost in
              let? host2 := unescape (Strings.drop zone (Strings.take i host)) encodeZone in
              let? host3 := unescape (Strings.drop i host) encodeHost in
              Ok (host1 ++ host2 ++ host3)
          | None => unescape host encodeHost
          end
    end
  else
    match Strings.LastIndex host ":" with
    | Some i =>
        let colonPort := Strings.drop i host in
        if negb (validOptionalPort colonPort) then
          Err (fmt_Errorf "invalid port %q after host" colonPort)
        else unescape host encodeHost
    | None => unescape host encodeHost
    end.

Definition parseAuthority (authority : string)
  : result (option Userinfo * string) :=
  match Strings.LastIndex authority "@" with
  | None =>
      let? host := parseHost authority in
      Ok (None, host)
  | Some i =>
      let? host := parseHost (Strings.drop (i + 1) authority) in
      let userinfo := Strings.take i authority in
      if negb (validUserinfo userinfo) then
        Err (errors_New "net/url: invalid userinfo")
      else if negb (Strings.Contains userinfo ":") then
        let? userinfo' := unescape userinfo encodeUserPassword in
        Ok (Some (mkUserinfo userinfo' "" false), host)
      else
        let '(username, password, _) := Strings.Cut userinfo ":" in
        let? username' := unescape username encodeUserPassword in
        let? password' := unescape password encodeUserPassword in
        Ok (Some (mkUserinfo username' password' true), host)
  end.

(** [parse(rawURL, viaRequest)] at [viaRequest = false], the only way
    [Parse] calls it. *)
Definition parse (rawURL : string) : result URL :=
  if stringContainsCTLByte rawURL then
    Err (errors_New "net/url: invalid control character in URL")
  else if String.eqb rawURL "*" then
    Ok (mkURL "" "" None "" "*" false false "" "")
  else
    let? (scheme, rest) := getScheme rawURL in
    let scheme := Strings.ToLower scheme in
    let '(rest, forceQuery, rawQuery) :=
      if Strings.HasSuffix rest "?" && (Strings.CountByte rest "?" =? 1)%nat
      then (Strings.take (String.length rest - 1) rest, true, "")
      else let '(before, after, _) := Strings.Cut rest "?" in
           (before, false, after) in
    if negb (Strings.HasPrefix rest "/") && negb (String.eqb scheme "") then
      Ok (mkURL scheme rest None "" "" false forceQuery rawQuery "")
    else if negb (Strings.HasPrefix rest "/")
            && Strings.Contains (fst (fst (Strings.Cut rest "/"))) ":" then
      Err (errors_New "first path segment in URL cannot contain colon")
    else
      let? (user, host, rest, omitHost) :=
        (if (negb (String.eqb scheme "") || negb (Strings.HasPrefix rest "///"))
            && Strings.HasPrefix rest "//"
         then
           let authority := Strings.drop 2 rest in
           let '(authority, rest) :=
             match Strings.Index authority "/" with
             | Some i => (Strings.take i authority, Strings.drop i authority)
             | None => (authority, "")
             end in
           let? (user, host) := parseAuthority authority in
           Ok (user, host, rest, false)
         else
           Ok (None, "", rest,
               negb (String.eqb scheme "") && Strings.HasPrefix rest "/")) in
      (* setPath *)
      let? path := unescape rest encodePath in
      Ok (mkURL scheme "" user host path omitHost forceQuery rawQuery "").

Definition setFragment (u : URL) (f : string) : result URL :=
  let? frag := unescape f encodeFragment in
  Ok (mkURL (Scheme u) (Opaque u) (User u) (Host u) (Path u) (OmitHost u)
            (ForceQuery u) (RawQuery u) frag).

Definition Parse (rawURL : string) : result URL :=
  let '(u, frag, _) := Strings.Cut rawURL "#" in
  match parse u with
  | Err err => Err (url_Error "parse" u err)
  | Ok url =>
      if String.eqb frag "" then Ok url
      else match setFragment url frag with
           | Err err => Err (url_Error "parse" rawURL err)
           | Ok url' => Ok url'
           end
  end.

Definition splitHostPort (hostPort : string) : string * string :=
  let '(host, port) :=
    match Strings.LastIndex hostPort ":" with
    | Some colon =>
        if validOptionalPort (Strings.drop colon hostPort)
        then (Strings.take colon hostPort, Strings.drop (colon + 1) hostPort)
        else (hostPort, "")
    | None => (hostPort, "")
    end in
  if Strings.HasPrefix host "[" && Strings.HasSuffix host "]"
  then (Strings.take (String.length host - 2) (Strings.drop 1 host), port)
  else (host, port).

Definition Hostname (u : URL) : string := fst (splitHostPort (Host u)).
Definition Port (u : URL) : string := snd (splitHostPort (Host u)).

End url.

(** A URL with its scheme replaced: what [url.Parse] makes of a URL when a
    scheme is written in front of its two slashes. *)
Definition withScheme (sch : string) (u : url.URL) : url.URL :=
  url.mkURL sch (url.Opaque u) (url.User u) (url.Host u) (url.Path u)
    (url.OmitHost u) (url.ForceQuery u) (url.RawQuery u) (url.Fragment u).

(** ** Package [strconv]: [Atoi]

    For a 64-bit [int] (every darwin target of Go has one). *)

Module strconv.

Definition ErrSyntax : error := errors_New "invalid syntax".
Definition ErrRange : error := errors_New "value out of range".

Definition syntaxError (fn str : string) : error := strconv_NumError fn str ErrSyntax.
Definition rangeError (fn str : string) : error := strconv_NumError fn str ErrRange.

Definition fnAtoi : string := "Atoi".

(** The digit loop of the fast path: [None] is its [syntaxError]. *)
Fixpoint fast_digits (s : string) (n : Z) : option Z :=
  match s with
  | "" => Some n
  | String ch s' =>
      if is_digit ch then fast_digits s' (n * 10 + (byte_val ch - byte_val "0"))
      else None
  end.

Definition maxUint64 : Z := 2 ^ 64 - 1.

Inductive uint_result : Type :=
| uint_ok (n : Z)
| uint_syntax
| uint_range.

(** The digit loop of [ParseUint(s, 10, 0)]: base 10, no underscores,
    [cutoff = maxUint64/10 + 1], [maxVal = maxUint64]. *)
Fixpoint ParseUint_loop (s : string) (n : Z) : uint_result :=
  match s with
  | "" => uint_ok n
  | String c s' =>
      if negb (is_digit c) then uint_syntax
      else if (n >=? maxUint64 / 10 + 1)%Z then uint_range
      else
        let n1 := (n * 10 + (byte_val c - byte_val "0"))%Z in
        if (n1 >? maxUint64)%Z then uint_range
        else ParseUint_loop s' n1
  end.

Definition ParseUint (s : string) : uint_result :=
  if String.eqb s "" then uint_syntax else ParseUint_loop s 0.

(** [ParseInt(s, 10, 0)] with the function name of the error already set to
    [fnAtoi], as [Atoi] does on its slow path. *)
Definition ParseInt (s : string) : result Z :=
  match s with
  | "" => Err (syntaxError fnAtoi s)
  | String c0 s1 =>
      let neg := Ascii.eqb c0 "-" in
      let digits := if Ascii.eqb c0 "+" || neg then s1 else s in
      match ParseUint digits with
      | uint_syntax => Err (syntaxError fnAtoi s)
      | uint_range => Err (rangeError fnAtoi s)
      | uint_ok un =>
          let cutoff := (2 ^ 63)%Z in
          if negb neg && (un >=? cutoff)%Z then Err (rangeError fnAtoi s)
          else if neg && (un >? cutoff)%Z then Err (rangeError fnAtoi s)
          else Ok (if neg then (- un)%Z else un)
      end
  end.

Definition Atoi (s : string) : result Z :=
  let sLen := String.length s in
  if (0 <? sLen)%nat && (sLen <? 19)%nat then
    match s with
    | "" => Err (syntaxError fnAtoi s)
    | String c0 s1 =>
        let signed := Ascii.eqb c0 "-" || Ascii.eqb c0 "+" in
        let digits := if signed then s1 else s in
        if signed && (String.length digits <? 1)%nat then
          Err (syntaxError fnAtoi s)
        else
          match fast_digits digits 0 with
          | None => Err (syntaxError fnAtoi s)
          | Some n => Ok (if Ascii.eqb c0 "-" then (- n)%Z else n)
          end
    end
  else ParseInt s.

End strconv.

(** ** The cgo boundary *)

(** What C code sees of [C.CString(s)]: the bytes before the first NUL.
    [C.CString] copies all of [s] and appends a NUL; the primitives receive
    the [char*] alone, without a length. *)
Fixpoint CString (s : string) : string :=
  match s with
  | "" => ""
  | String c s' => if Ascii.eqb c "000" then "" else String c (CString s')
  end.

(** Whether a Go string holds a NUL byte. *)
Fixpoint hasNUL (s : string) : bool :=
  match s with
  | "" => false
  | String c s' => Ascii.eqb c "000" || hasNUL s'
  end.

(** [C.GoStringN(p, n)]: the first [n] bytes at [p].  Lengths are natural
    numbers: [C.int(usernameLen)] is the identity on the lengths of the
    strings a keychain holds. *)
Definition GoStringN (p : string) (n : nat) : string := Strings.take n p.

(** The two protocol constants of [Security.framework] the file uses. *)
Inductive SecProtocolType : Type :=
| kSecProtocolTypeHTTPS
| kSecProtocolTypeHTTP.

(** [struct Server] of [osxkeychain_darwin.h].  [host] and [path] are C
    strings; [port] is an [unsigned int]. *)
Record Server : Type := mkServer {
  proto : SecProtocolType;
  host : string;
  port : Z;
  path : string
}.

(** [C.uint(port)] of a Go [int]: reduction modulo [2^32]. *)
Definition C_uint (n : Z) : Z := n mod 2 ^ 32.

(** Reply of [keychain_get] on success: the four out-parameters. *)
Record get_out : Type := mkGetOut {
  usernameLen : nat;
  username : string;
  secretLen : nat;
  secret : string
}.

(** Reply of [keychain_list] on success: the two arrays and their length. *)
Record list_out : Type := mkListOut {
  paths : list string;
  accts : list string;
  listLen : nat
}.

(** The primitives of [osxkeychain_darwin.h], indexed by what they hand
    back.  Each returns [char *errMsg], [NULL] on success: [option string]
    for the two that have no output, [inl errMsg] or [inr] outputs for the
    two that do. *)
Inductive call : Type -> Type :=
| keychain_add (s : Server) (label username secret : string) : call (option string)
| keychain_delete (s : Server) : call (option string)
| keychain_get (s : Server) : call (string + get_out)
| keychain_list (credsLabel : string) : call (string + list_out).

(** A Go method of [Osxkeychain]: returns, or calls a primitive and goes on
    with its reply.  (Memory management, [defer C.free(..)] and
    [freeServer], has no counterpart here.) *)
Inductive prog (A : Type) : Type :=
| Ret (a : A)
| Call {X : Type} (c : call X) (k : X -> prog A).
Arguments Ret {A} a.
Arguments Call {A X} c k.

Fixpoint pbind {A B} (p : prog A) (f : A -> prog B) : prog B :=
  match p with
  | Ret a => f a
  | Call c k => Call c (fun x => pbind (k x) f)
  end.

Notation "'call!' x ':=' p 'in' k" := (pbind p (fun x => k))
  (at level 10, x pattern, p at level 200, k at level 200).

(** The platform: answers a primitive from its state [K]. *)
Definition handler (K : Type) : Type := forall X, call X -> K -> X * K.

Fixpoint run {K A} (h : handler K) (p : prog A) (st : K) : A * K :=
  match p with
  | Ret a => (a, st)
  | Call c k => let '(x, st') := h _ c st in run h (k x) st'
  end.

Inductive invocation : Type :=
| Invoked {X : Type} (c : call X).

(** The primitives a program invokes, in order. *)
Fixpoint trace {K A} (h : handler K) (p : prog A) (st : K) : list invocation :=
  match p with
  | Ret _ => []
  | Call c k => let '(x, st') := h _ c st in Invoked c :: trace h (k x) st'
  end.

(** ** Package [osxkeychain] *)

(** [errCredentialsNotFound]: the message OS X returns when the credentials
    are not in the keychain. *)
Definition errCredentialsNotFound : string :=
  "The specified item could not be found in the keychain.".

Module credentials.

(** [credentials.Credentials], as far as this package reads it. *)
Record Credentials : Type := mkCredentials {
  ServerURL : string;
  Username : string;
  Secret : string
}.

Definition NewErrCredentialsNotFound : error := credentials_errCredentialsNotFound.

End credentials.
Import credentials.

(** Lines 143-145 of [splitServer]: prepend ["//"] unless the pattern
    matches. *)
Definition prependSlashes (serverURL : string) : string :=
  if negb (regexp.MatchString schemeRE serverURL) then "//" ++ serverURL
  else serverURL.

Definition splitServer (serverURL : string) : result Server :=
  let serverURL := prependSlashes serverURL in
  match url.Parse serverURL with
  | Err err => Err err
  | Ok u =>
      if negb (String.eqb (url.Scheme u) "")
         && negb (String.eqb (url.Scheme u) "https")
         && negb (String.eqb (url.Scheme u) "http")
      then Err (errors_New ("unsupported scheme: " ++ url.Scheme u))
      else if String.eqb (url.Hostname u) "" then
        Err (errors_New "no hostname in URL")
      else
        let proto :=
          if String.eqb (url.Scheme u) "http" then kSecProtocolTypeHTTP
          else kSecProtocolTypeHTTPS in
        let? port :=
          (if negb (String.eqb (url.Port u) "") then strconv.Atoi (url.Port u)
           else Ok 0%Z) in
        Ok {| proto := proto;
              host := CString (url.Host u);
              port := C_uint port;
              path := CString (url.Path u) |}
  end.

(** The loop of [List]: [resp] after the iterations [i, i+1, .., i+n-1]. *)
Fixpoint List_loop (pathTmp acctTmp : list string) (i n : nat)
    (resp : gmap string string) : gmap string string :=
  match n with
  | O => resp
  | S n' =>
      let resp' :=
        if String.eqb (nth i pathTmp "") "0" then resp
        else <[nth i pathTmp "" := nth i acctTmp ""]> resp in
      List_loop pathTmp acctTmp (S i) n' resp'
  end.

Section Osxkeychain.

(** [credentials.CredsLabel], declared outside this package. *)
Variable CredsLabel : string.

(** [Delete] removes credentials from the keychain. *)
Definition Delete (serverURL : string) : prog (option error) :=
  match splitServer serverURL with
  | Err err => Ret (Some err)
  | Ok s =>
      Call (keychain_delete s) (fun errMsg =>
      match errMsg with
      | Some msg => Ret (Some (errors_New msg))
      | None => Ret None
      end)
  end.

(** [Add] adds new credentials to the keychain. *)
Definition Add (creds : Credentials) : prog (option error) :=
  call! _ := Delete (ServerURL creds) in
  match splitServer (ServerURL creds) with
  | Err err => Ret (Some err)
  | Ok s =>
      Call (keychain_add s (CString CredsLabel) (CString (Username creds))
              (CString (Secret creds))) (fun errMsg =>
      match errMsg with
      | Some msg => Ret (Some (errors_New msg))
      | None => Ret None
      end)
  end.

(** [Get] returns the username and secret to use for a given registry
    server URL. *)
Definition Get (serverURL : string) : prog (result (string * string)) :=
  match splitServer serverURL with
  | Err err => Ret (Err err)
  | Ok s =>
      Call (keychain_get s) (fun reply =>
      match reply with
      | inl goMsg =>
          if String.eqb goMsg errCredentialsNotFound
          then Ret (Err NewErrCredentialsNotFound)
          else Ret (Err (errors_New goMsg))
      | inr out =>
          let user := GoStringN (username out) (usernameLen out) in
          let pass := GoStringN (secret out) (secretLen out) in
          Ret (Ok (user, pass))
      end)
  end.

(** [List] returns the stored URLs and corresponding usernames. *)
Definition List : prog (result (gmap string string)) :=
  Call (keychain_list (CString CredsLabel)) (fun reply =>
  match reply with
  | inl goMsg => Ret (Err (errors_New goMsg))
  | inr out =>
      Ret (Ok (List_loop (paths out) (accts out) 0 (listLen out) ∅))
  end).

End Osxkeychain.

(** ** The platform keychain *)

Global Instance SecProtocolType_eq_dec : EqDecision SecProtocolType.
Proof. solve_decision. Defined.

Global Instance Server_eq_dec : EqDecision Server.
Proof. solve_decision. Defined.

Definition Server_to_tuple (s : Server) : bool * string * Z * string :=
  (match proto s with kSecProtocolTypeHTTP => true | kSecProtocolTypeHTTPS => false end,
   host s, port s, path s).

Definition Server_of_tuple (t : bool * string * Z * string) : Server :=
  let '(b, h, n, p) := t in
  mkServer (if b then kSecProtocolTypeHTTP else kSecProtocolTypeHTTPS) h n p.

Global Instance Server_countable : Countable Server.
Proof.
  apply (inj_countable' Server_to_tuple Server_of_tuple).
  intros [[] h n p]; reflexivity.
Defined.

(** Modelled from the spec: what the secret store keeps with a server key,
    the application label, the username and the secret. *)
Record entry : Type := mkEntry {
  entry_label : string;
  entry_account : string;
  entry_secret : string
}.

(** Modelled from the spec: the operating system's secret store behind the
    four primitives; their C implementation, [osxkeychain_darwin.c], is
    what is missing.
    Entries are addressed by the normalized server key, which is unique.
    [faults] scripts the platform failures that have nothing to do with the
    stored entries (a locked keychain, a denied access): every primitive
    call consumes one element, and [Some msg] makes that call fail with
    [msg], touching nothing. *)
Record keychain : Type := mkKeychain {
  items : gmap Server entry;
  faults : list (option string)
}.

(** Modelled from the spec: a secret store that holds [m] and does not
    fail. *)
Definition working (m : gmap Server entry) : keychain := mkKeychain m [].

(** Modelled from the spec: the platform's message for a key that is
    taken.  The spec makes the server key unique and credits the overwrite
    to the delete that [Add] starts with, so add-entry itself refuses a
    key that already has an entry. *)
Definition errDuplicateItem : string :=
  "The specified item already exists in the keychain.".

(** Modelled from the spec: the textual form under which the enumeration
    reports a stored key, protocol then host then path. *)
Definition stored_key (s : Server) : string :=
  (match proto s with
   | kSecProtocolTypeHTTPS => "https://"
   | kSecProtocolTypeHTTP => "http://"
   end) ++ host s ++ path s.

(** Modelled from the spec: a primitive whose turn is not a scripted fault.
    Add-entry stores under a free key; delete-entry and lookup report the
    platform's item-not-found message for a missing key; enumeration
    returns the keys and accounts of the entries carrying the label. *)
Definition serve (X : Type) (c : call X) (m : gmap Server entry)
    : X * gmap Server entry :=
  match c in call X return X * gmap Server entry with
  | keychain_add s label user pass =>
      match m !! s with
      | Some _ => (Some errDuplicateItem, m)
      | None => (None, <[s := mkEntry label user pass]> m)
      end
  | keychain_delete s =>
      match m !! s with
      | Some _ => (None, delete s m)
      | None => (Some errCredentialsNotFound, m)
      end
  | keychain_get s =>
      match m !! s with
      | Some e =>
          (inr (mkGetOut (String.length (entry_account e)) (entry_account e)
                         (String.length (entry_secret e)) (entry_secret e)), m)
      | None => (inl errCredentialsNotFound, m)
      end
  | keychain_list label =>
      let found :=
        filter (fun se => entry_label (snd se) = label) (map_to_list m) in
      (inr (mkListOut (map (fun se => stored_key (fst se)) found)
                      (map (fun se => entry_account (snd se)) found)
                      (length found)), m)
  end.

(** Modelled from the spec: the reply of a primitive that fails with the
    platform message [msg]. *)
Definition failure (X : Type) (c : call X) (msg : string) : X :=
  match c in call X return X with
  | keychain_add _ _ _ _ => Some msg
  | keychain_delete _ => Some msg
  | keychain_get _ => inl msg
  | keychain_list _ => inl msg
  end.

(** Modelled from the spec: the platform as a handler of the primitives. *)
Definition platform : handler keychain :=
  fun X c kc =>
    match faults kc with
    | Some msg :: rest => (failure X c msg, mkKeychain (items kc) rest)
    | None :: rest =>
        let '(x, m) := serve X c (items kc) in (x, mkKeychain m rest)
    | [] =>
        let '(x, m) := serve X c (items kc) in (x, mkKeychain m [])
    end.

(** A platform that holds nothing and answers every enumeration with
    [out]: for running [List] on a given enumeration. *)
Definition enumerating (out : list_out) : handler unit :=
  fun X c _ =>
    match c in call X return X * unit with
    | keychain_add _ _ _ _ => (None, tt)
    | keychain_delete _ => (Some errCredentialsNotFound, tt)
    | keychain_get _ => (inl errCredentialsNotFound, tt)
    | keychain_list _ => (inr out, tt)
    end.

(** * Properties *)

(** ** The pattern matcher against the words of a pattern *)

Lemma append_nil_inv (a b : string) : a ++ b = "" -> a = "" /\ b = "".
Proof. destruct a; simpl; [auto | discriminate]. Qed.

Lemma append_assoc_string (a b c : string) : (a ++ b) ++ c = a ++ (b ++ c).
Proof. induction a; simpl; congruence. Qed.

Module regexp_facts.
Import regexp.

Lemma lang_seq_inv r1 r2 w :
  lang (Seq r1 r2) w -> exists w1 w2, w = w1 ++ w2 /\ lang r1 w1 /\ lang r2 w2.
Proof. intros H. inversion H; subst. eauto. Qed.

Lemma lang_alt_inv r1 r2 w : lang (Alt r1 r2) w -> lang r1 w \/ lang r2 w.
Proof. intros H. inversion H; subst; auto. Qed.

Lemma lang_eps_inv w : lang Eps w -> w = "".
Proof. intros H. inversion H; subst; auto. Qed.

Lemma lang_class_inv p w :
  lang (Class p) w -> exists c, w = String c "" /\ p c = true.
Proof. intros H. inversion H; subst; eauto. Qed.

Lemma nullable_lang r : nullable r = true <-> lang r "".
Proof.
  split.
  - induction r; simpl; intros H; try discriminate.
    + constructor.
    + apply andb_true_iff in H as [H1 H2].
      change "" with ("" ++ ""). constructor; auto.
    + apply orb_true_iff in H as [H | H];
        [apply lang_alt_l | apply lang_alt_r]; auto.
    + constructor.
  - intros H. remember "" as w eqn:Hw.
    induction H; simpl; try discriminate; auto.
    + apply append_nil_inv in Hw as [-> ->].
      rewrite IHlang1, IHlang2; auto.
    + rewrite IHlang; auto.
    + rewrite IHlang, orb_true_r; auto.
Qed.

Lemma star_cons_inv r c w :
  lang (Star r) (String c w) ->
  exists w1 w2, w = w1 ++ w2 /\ lang r (String c w1) /\ lang (Star r) w2.
Proof.
  intros H. remember (Star r) as sr eqn:Hr. remember (String c w) as cw eqn:Hw.
  revert Hw. induction H; try discriminate; intros Hw.
  injection Hr as ->.
  destruct w1 as [| c1 w1']; simpl in Hw.
  - apply IHlang2; auto.
  - injection Hw as -> <-. exists w1', w2. auto.
Qed.

Lemma deriv_seq_intro c r1 r2 v :
  (forall w, lang (deriv c r1) w -> lang r1 (String c w)) ->
  lang (Seq (deriv c r1) r2) v -> lang (Seq r1 r2) (String c v).
Proof.
  intros IH H. apply lang_seq_inv in H as (w1 & w2 & -> & H1 & H2).
  change (String c (w1 ++ w2)) with (String c w1 ++ w2).
  constructor; auto.
Qed.

Lemma deriv_lang c r : forall w, lang (deriv c r) w <-> lang r (String c w).
Proof.
  induction r; simpl; intros w.
  - split; intros H; inversion H.
  - split; intros H; inversion H.
  - destruct (p c) eqn:Hp; split; intros H.
    + apply lang_eps_inv in H as ->. constructor; auto.
    + apply lang_class_inv in H as (c' & [= <- ->] & _). constructor.
    + inversion H.
    + apply lang_class_inv in H as (c' & [= <- ->] & H). congruence.
  - assert (Hinv : lang (Seq r1 r2) (String c w) ->
                   lang (Seq (deriv c r1) r2) w \/
                   (nullable r1 = true /\ lang (deriv c r2) w)).
    { intros H. apply lang_seq_inv in H as (w1 & w2 & Heq & H1 & H2).
      destruct w1 as [| c1 w1']; simpl in Heq.
      - right. subst w2. split; [apply nullable_lang; auto | apply IHr2; auto].
      - injection Heq as <- ->. left. constructor; auto. apply IHr1; auto. }
    destruct (nullable r1) eqn:Hn; split; intros H.
    + apply lang_alt_inv in H as [H | H].
      * apply deriv_seq_intro; auto. intros v. apply IHr1.
      * change (String c w) with ("" ++ String c w).
        constructor; [apply nullable_lang; auto | apply IHr2; auto].
    + destruct (Hinv H) as [H' | [_ H']];
        [apply lang_alt_l | apply lang_alt_r]; auto.
    + apply deriv_seq_intro; auto. intros v. apply IHr1.
    + destruct (Hinv H) as [H' | [H' _]]; [auto | discriminate].
  - split; intros H; apply lang_alt_inv in H as [H | H].
    + apply lang_alt_l, IHr1; auto.
    + apply lang_alt_r, IHr2; auto.
    + apply lang_alt_l, IHr1; auto.
    + apply lang_alt_r, IHr2; auto.
  - split; intros H.
    + apply lang_seq_inv in H as (w1 & w2 & -> & H1 & H2).
      change (String c (w1 ++ w2)) with (String c w1 ++ w2).
      constructor; auto. apply IHr; auto.
    + apply star_cons_inv in H as (w1 & w2 & -> & H1 & H2).
      constructor; auto. apply IHr; auto.
Qed.

(** [MatchString] finds exactly the strings with a prefix in the language. *)
Lemma MatchString_spec s : forall r,
  MatchString r s = true <-> exists p q, s = p ++ q /\ lang r p.
Proof.
  induction s as [| c s IH]; intros r; simpl.
  - rewrite orb_false_r, nullable_lang. split.
    + intros H. exists "", "". auto.
    + intros (p & q & Hpq & H). symmetry in Hpq.
      apply append_nil_inv in Hpq as [-> _]. auto.
  - rewrite orb_true_iff, nullable_lang, IH. split.
    + intros [H | (p & q & -> & H)].
      * exists "", (String c s). auto.
      * exists (String c p), q. split; auto. apply deriv_lang; auto.
    + intros (p & q & Hpq & H). destruct p as [| c' p']; simpl in Hpq.
      * left; auto.
      * injection Hpq as -> ->. right. exists p', q. split; auto.
        apply deriv_lang; auto.
Qed.

Lemma lang_lit c w : lang (Lit c) w -> w = String c "".
Proof.
  intros H. apply lang_class_inv in H as (c' & -> & H).
  apply Ascii.eqb_eq in H. congruence.
Qed.

End regexp_facts.

Lemma lang_slashes w : regexp.lang slashes w -> w = "//".
Proof.
  intros H. apply regexp_facts.lang_seq_inv in H as (w1 & w2 & -> & H1 & H2).
  apply regexp_facts.lang_lit in H1, H2. subst. reflexivity.
Qed.

(** A string the pattern of [splitServer] matches starts with a scheme
    prefix or with ["//"]. *)
Lemma schemeRE_match s :
  regexp.MatchString schemeRE s = true ->
  hasSchemePrefix s = true \/ exists t, s = "//" ++ t.
Proof.
  intros H. apply regexp_facts.MatchString_spec in H as (p & q & -> & H).
  apply regexp_facts.lang_seq_inv in H as (w1 & w2 & -> & H1 & H2).
  apply regexp_facts.lang_alt_inv in H1 as [H1 | H1].
  - left. apply regexp_facts.MatchString_spec.
    exists (w1 ++ w2), q. split; auto. constructor; auto.
  - right. apply regexp_facts.lang_eps_inv in H1 as ->.
    apply lang_slashes in H2 as ->. exists q. reflexivity.
Qed.

(** Without a scheme prefix, what [splitServer] parses starts with ["//"]. *)
Lemma prependSlashes_no_scheme s :
  hasSchemePrefix s = false -> exists t, prependSlashes s = "//" ++ t.
Proof.
  intros Hs. unfold prependSlashes.
  destruct (regexp.MatchString schemeRE s) eqn:Hm; simpl.
  - apply schemeRE_match in Hm as [Hm | Hm]; [congruence | auto].
  - exists s. reflexivity.
Qed.

(** ** [url.Parse] on a string that starts with ["//"] *)

Lemma Cut_slashes t :
  exists t' frag b, Strings.Cut ("//" ++ t) "#" = ("//" ++ t', frag, b).
Proof.
  unfold Strings.Cut. simpl.
  destruct (Strings.Index t "#") as [i |]; simpl; eauto.
Qed.

Lemma parse_slashes t u : url.parse ("//" ++ t) = Ok u -> url.Scheme u = "".
Proof.
  unfold url.parse. simpl.
  intros H. repeat case_match; simplify_eq; try reflexivity.
  all: simpl in *; discriminate.
Qed.

Lemma Parse_slashes t u : url.Parse ("//" ++ t) = Ok u -> url.Scheme u = "".
Proof.
  unfold url.Parse. destruct (Cut_slashes t) as (t' & frag & b & ->).
  destruct (url.parse ("//" ++ t')) as [u' |] eqn:Hp; [| discriminate].
  apply parse_slashes in Hp.
  destruct (String.eqb frag ""); [congruence |].
  unfold url.setFragment. destruct (url.unescape frag url.encodeFragment); simpl.
  - intros [= <-]. exact Hp.
  - discriminate.
Qed.

(** ** [splitServer] *)

Lemma eqb_false_of_neq (a b : string) : a <> b -> String.eqb a b = false.
Proof. intros H. apply String.eqb_neq; auto. Qed.

(** [splitServer] after its call of [url.Parse] succeeded. *)
Lemma splitServer_parsed s u :
  url.Parse (prependSlashes s) = Ok u ->
  splitServer s =
    if negb (String.eqb (url.Scheme u) "")
       && negb (String.eqb (url.Scheme u) "https")
       && negb (String.eqb (url.Scheme u) "http")
    then Err (errors_New ("unsupported scheme: " ++ url.Scheme u))
    else if String.eqb (url.Hostname u) "" then Err (errors_New "no hostname in URL")
    else
      match (if negb (String.eqb (url.Port u) "") then strconv.Atoi (url.Port u)
             else Ok 0%Z) with
      | Ok n =>
          Ok {| proto := if String.eqb (url.Scheme u) "http"
                         then kSecProtocolTypeHTTP else kSecProtocolTypeHTTPS;
                host := CString (url.Host u);
                port := C_uint n;
                path := CString (url.Path u) |}
      | Err e => Err e
      end.
Proof. intros H. unfold splitServer. rewrite H. reflexivity. Qed.


(** What a successful [splitServer] went through. *)
Lemma splitServer_Ok_inv s srv :
  splitServer s = Ok srv ->
  exists u n,
    url.Parse (prependSlashes s) = Ok u
    /\ (url.Scheme u = "" \/ url.Scheme u = "https" \/ url.Scheme u = "http")
    /\ url.Hostname u <> ""
    /\ (url.Port u = "" /\ n = 0%Z \/ url.Port u <> "" /\ strconv.Atoi (url.Port u) = Ok n)
    /\ srv = {| proto := if String.eqb (url.Scheme u) "http"
                         then kSecProtocolTypeHTTP else kSecProtocolTypeHTTPS;
                host := CString (url.Host u);
                port := C_uint n;
                path := CString (url.Path u) |}.
Proof.
  intros H.
  assert (Hp : exists u, url.Parse (prependSlashes s) = Ok u).
  { unfold splitServer in H.
    destruct (url.Parse (prependSlashes s)); [eauto | discriminate]. }
  destruct Hp as [u Hp]. rewrite (splitServer_parsed _ _ Hp) in H. exists u.
  destruct (negb (String.eqb (url.Scheme u) "")
            && negb (String.eqb (url.Scheme u) "https")
            && negb (String.eqb (url.Scheme u) "http")) eqn:Esch; [discriminate |].
  assert (Hsch : url.Scheme u = "" \/ url.Scheme u = "https" \/ url.Scheme u = "http").
  { destruct (String.eqb_spec (url.Scheme u) ""); [auto |].
    destruct (String.eqb_spec (url.Scheme u) "https"); [auto |].
    destruct (String.eqb_spec (url.Scheme u) "http"); [auto | discriminate]. }
  destruct (String.eqb_spec (url.Hostname u) "") as [| Hh]; [discriminate |].
  destruct (String.eqb_spec (url.Port u) "") as [Hport | Hport]; simpl in H.
  - injection H as <-. exists 0%Z. repeat split; auto.
  - destruct (strconv.Atoi (url.Port u)) as [n |] eqn:Ha; [| discriminate].
    injection H as <-. exists n. repeat split; auto.
Qed.

(** ** The claims on normalization *)

(** C5 (as amended).  For every serverURL that lacks a scheme prefix,
    normalization uses HTTPS, and it succeeds exactly when the URL parses,
    its host name is not empty and its port, if it has one, converts to an
    integer.  Both ["https://"] and [""] fail for want of a host name. *)
Theorem splitServer_without_scheme :
  (forall s, hasSchemePrefix s = false ->
     (forall srv, splitServer s = Ok srv -> proto srv = kSecProtocolTypeHTTPS)
     /\ (is_ok (splitServer s) = true <->
         exists u, url.Parse (prependSlashes s) = Ok u
                   /\ url.Hostname u <> ""
                   /\ (url.Port u = "" \/ is_ok (strconv.Atoi (url.Port u)) = true)))
  /\ splitServer "https://" = Err (errors_New "no hostname in URL")
  /\ splitServer "" = Err (errors_New "no hostname in URL").
Proof.
  split; [| split; reflexivity].
  intros s Hs. destruct (prependSlashes_no_scheme s Hs) as [t Ht]. split.
  - intros srv H. apply splitServer_Ok_inv in H as (u & n & Hp & _ & _ & _ & ->).
    rewrite Ht in Hp. apply Parse_slashes in Hp. simpl. rewrite Hp. reflexivity.
  - split.
    + intros H. destruct (splitServer s) as [srv |] eqn:Hsrv; [| discriminate].
      apply splitServer_Ok_inv in Hsrv as (u & n & Hp & _ & Hh & Hport & _).
      exists u. split; [auto | split; [auto |]].
      destruct Hport as [[Hport _] | [_ Hport]]; [left; auto | right].
      rewrite Hport. reflexivity.
    + intros (u & Hp & Hh & Hport).
      rewrite (splitServer_parsed _ _ Hp).
      rewrite Ht in Hp. apply Parse_slashes in Hp. rewrite Hp. simpl.
      rewrite (eqb_false_of_neq _ _ Hh).
      destruct (String.eqb (url.Port u) "") eqn:E; simpl; [reflexivity |].
      destruct Hport as [Hport | Hport].
      * apply String.eqb_neq in E. contradiction.
      * destruct (strconv.Atoi (url.Port u)); [reflexivity | discriminate].
Qed.

(** Witness of C5: ["registry.example.com:5000/team"] has no scheme prefix;
    it parses, with the host name ["registry.example.com"] and the port
    ["5000"], so it normalizes, with HTTPS. *)
Lemma splitServer_without_scheme_witness :
  hasSchemePrefix "registry.example.com:5000/team" = false
  /\ is_ok (splitServer "registry.example.com:5000/team") = true
  /\ splitServer "registry.example.com:5000/team"
     = Ok (mkServer kSecProtocolTypeHTTPS "registry.example.com:5000" 5000 "/team").
Proof.
  pose proof (proj1 splitServer_without_scheme "registry.example.com:5000/team" eq_refl)
    as [Hproto Hok].
  split; [reflexivity |]. split; [| reflexivity].
  apply (proj2 Hok).
  exists (url.mkURL "" "" None "registry.example.com:5000" "/team" false false "" "").
  split; [reflexivity |]. split; [discriminate | right; reflexivity].
Defined.

(** C5 as stated fails: ["host:99999999999999999999"] has no scheme prefix
    and a host name, ["host"], is extracted from it, but its port is out
    of the range of [int] and normalization fails. *)
Lemma splitServer_without_scheme_counterexample :
  hasSchemePrefix "host:99999999999999999999" = false
  /\ (exists u, url.Parse (prependSlashes "host:99999999999999999999") = Ok u
                /\ url.Hostname u = "host")
  /\ splitServer "host:99999999999999999999"
     = Err (strconv_NumError "Atoi" "99999999999999999999" strconv.ErrRange).
Proof.
  split; [reflexivity | split; [| reflexivity]].
  eexists. split; reflexivity.
Qed.

(** C6.  When the scheme of the parsed serverURL is not empty, ["http"] or
    ["https"], normalization fails with the unsupported-scheme error; so no
    other scheme is accepted. *)
Theorem splitServer_unsupported_scheme s u :
  url.Parse (prependSlashes s) = Ok u ->
  url.Scheme u <> "" -> url.Scheme u <> "http" -> url.Scheme u <> "https" ->
  splitServer s = Err (errors_New ("unsupported scheme: " ++ url.Scheme u)).
Proof.
  intros Hp H1 H2 H3. rewrite (splitServer_parsed _ _ Hp).
  rewrite !eqb_false_of_neq by auto. reflexivity.
Qed.

(** Witness of C6: ["ftp://host"]. *)
Lemma splitServer_unsupported_scheme_witness :
  splitServer "ftp://host" = Err (errors_New "unsupported scheme: ftp").
Proof.
  apply (splitServer_unsupported_scheme "ftp://host"
           (url.mkURL "ftp" "" None "host" "" false false "" ""));
    [reflexivity | discriminate | discriminate | discriminate].
Defined.



(** ** Running the methods *)

Lemma run_pbind {K A B} (h : handler K) (p : prog A) (f : A -> prog B) st :
  run h (pbind p f) st = run h (f (fst (run h p st))) (snd (run h p st)).
Proof.
  revert st. induction p as [a | X c k IH]; intros st; simpl; [reflexivity |].
  destruct (h X c st) as [x st']. apply IH.
Qed.

Lemma trace_pbind {K A B} (h : handler K) (p : prog A) (f : A -> prog B) st :
  trace h (pbind p f) st
  = (trace h p st ++ trace h (f (fst (run h p st))) (snd (run h p st)))%list.
Proof.
  revert st. induction p as [a | X c k IH]; intros st; simpl; [reflexivity |].
  destruct (h X c st) as [x st']. simpl. f_equal. apply IH.
Qed.



(** The errors of [strconv.Atoi] and of [splitServer] are never the typed
    not-found error. *)
Lemma Atoi_error s e : strconv.Atoi s = Err e -> e <> credentials_errCredentialsNotFound.
Proof.
  unfold strconv.Atoi, strconv.ParseInt, strconv.syntaxError, strconv.rangeError.
  intros H. repeat case_match; simplify_eq; discriminate.
Qed.

Lemma Parse_error s e : url.Parse s = Err e -> e <> credentials_errCredentialsNotFound.
Proof.
  unfold url.Parse. intros H. repeat case_match; simplify_eq; discriminate.
Qed.

Lemma splitServer_error s e :
  splitServer s = Err e -> e <> credentials_errCredentialsNotFound.
Proof.
  unfold splitServer. intros H.
  destruct (url.Parse (prependSlashes s)) as [u |] eqn:Hp.
  - repeat case_match; simplify_eq; try discriminate.
    eapply Atoi_error; eauto.
  - injection H as <-. eapply Parse_error; eauto.
Qed.

Section Methods.

Variable CredsLabel : string.
Context {K : Type} (h : handler K).

Lemma run_Delete url s st :
  splitServer url = Ok s ->
  run h (Delete url) st
  = (option_map errors_New (fst (h _ (keychain_delete s) st)),
     snd (h _ (keychain_delete s) st)).
Proof.
  intros Hs. unfold Delete. rewrite Hs. simpl.
  destruct (h _ (keychain_delete s) st) as [[msg |] st']; reflexivity.
Qed.

Lemma trace_Delete url s st :
  splitServer url = Ok s ->
  trace h (Delete url) st = [Invoked (keychain_delete s)].
Proof.
  intros Hs. unfold Delete. rewrite Hs. simpl.
  destruct (h _ (keychain_delete s) st) as [[msg |] st']; reflexivity.
Qed.

Lemma run_Delete_Err url e st :
  splitServer url = Err e -> run h (Delete url) st = (Some e, st).
Proof. intros Hs. unfold Delete. rewrite Hs. reflexivity. Qed.

Lemma run_Add creds s st :
  splitServer (ServerURL creds) = Ok s ->
  let st1 := snd (h _ (keychain_delete s) st) in
  let add := keychain_add s (CString CredsLabel) (CString (Username creds))
               (CString (Secret creds)) in
  run h (Add CredsLabel creds) st
  = (option_map errors_New (fst (h _ add st1)), snd (h _ add st1)).
Proof.
  intros Hs. simpl. unfold Add. rewrite run_pbind, (run_Delete _ _ _ Hs), Hs.
  simpl. destruct (h _ _ (snd (h _ (keychain_delete s) st))) as [[msg |] st2];
    reflexivity.
Qed.

Lemma run_Get url s st :
  splitServer url = Ok s ->
  run h (Get url) st
  = (match fst (h _ (keychain_get s) st) with
     | inl goMsg =>
         Err (if String.eqb goMsg errCredentialsNotFound
              then NewErrCredentialsNotFound else errors_New goMsg)
     | inr out =>
         Ok (GoStringN (username out) (usernameLen out),
             GoStringN (secret out) (secretLen out))
     end, snd (h _ (keychain_get s) st)).
Proof.
  intros Hs. unfold Get. rewrite Hs. simpl.
  destruct (h _ (keychain_get s) st) as [[msg | out] st']; simpl; [| reflexivity].
  destruct (String.eqb msg errCredentialsNotFound); reflexivity.
Qed.

End Methods.

(** The platform model on a keychain that does not fail. *)
Lemma platform_working X (c : call X) m :
  platform X c (working m) = (fst (serve X c m), working (snd (serve X c m))).
Proof. unfold platform, working. simpl. destruct (serve X c m); reflexivity. Qed.

(** ** The claims on the errors of [Get], [Delete] and [Add] *)



(** C4.  [Delete] never returns the typed not-found error.  For a serverURL
    that normalizes to [s], whatever message the delete primitive fails
    with comes back as a generic error carrying it, the platform's
    item-not-found message included; that is what happens on a keychain
    that holds nothing for [s]. *)
Theorem Delete_errors :
  (forall url K (h : handler K) st,
     fst (run h (Delete url) st) <> Some credentials_errCredentialsNotFound)
  /\ (forall url s, splitServer url = Ok s ->
        (forall K (h : handler K) st st' msg,
           h _ (keychain_delete s) st = (Some msg, st') ->
           run h (Delete url) st = (Some (errors_New msg), st'))
        /\ (forall m : gmap Server entry,
              m !! s = None ->
              run platform (Delete url) (working m)
              = (Some (errors_New errCredentialsNotFound), working m))).
Proof.
  split.
  - intros url K h st. destruct (splitServer url) as [s | e] eqn:Hs.
    + rewrite (run_Delete _ _ _ _ Hs). simpl.
      destruct (fst (h _ (keychain_delete s) st)); simpl; discriminate.
    + rewrite (run_Delete_Err _ _ _ _ Hs). simpl.
      intros [= ->]. eapply splitServer_error; eauto.
  - intros url s Hs. split.
    + intros K h st st' msg Hh. rewrite (run_Delete _ _ _ _ Hs), Hh. reflexivity.
    + intros m Hm. rewrite (run_Delete _ _ _ _ Hs), platform_working. simpl.
      rewrite Hm. reflexivity.
Qed.

(** Witness of C4: deleting ["index.docker.io"] from an empty keychain. *)
Lemma Delete_errors_witness :
  run platform (Delete "index.docker.io") (working ∅)
  = (Some (errors_New errCredentialsNotFound), working ∅).
Proof.
  apply (proj2 (proj2 Delete_errors "index.docker.io"
                  (mkServer kSecProtocolTypeHTTPS "index.docker.io" 0 "") eq_refl)).
  reflexivity.
Defined.

(** C10 (as amended).  [Add] drops whatever its preliminary [Delete]
    returns and normalizes the URL again.  When the URL normalizes, the
    delete primitive and then the add primitive are invoked, whatever the
    delete primitive answered, and the result of [Add] is that of the add
    primitive.  When it does not, [Delete] and [Add] both return the
    normalization error and no primitive is invoked. *)
Theorem Add_ignores_Delete CredsLabel creds K (h : handler K) st :
  match splitServer (ServerURL creds) with
  | Ok s =>
      let add := keychain_add s (CString CredsLabel) (CString (Username creds))
                   (CString (Secret creds)) in
      let st1 := snd (run h (Delete (ServerURL creds)) st) in
      run h (Add CredsLabel creds) st
      = (option_map errors_New (fst (h _ add st1)), snd (h _ add st1))
      /\ trace h (Add CredsLabel creds) st
         = [Invoked (keychain_delete s); Invoked add]
  | Err e =>
      run h (Delete (ServerURL creds)) st = (Some e, st)
      /\ run h (Add CredsLabel creds) st = (Some e, st)
      /\ trace h (Add CredsLabel creds) st = []
  end.
Proof.
  destruct (splitServer (ServerURL creds)) as [s | e] eqn:Hs.
  - simpl. split.
    + rewrite (run_Add _ _ _ _ _ Hs), (run_Delete _ _ _ _ Hs). reflexivity.
    + unfold Add. rewrite trace_pbind, (trace_Delete _ _ _ _ Hs), Hs. simpl.
      destruct (h _ _ (snd (run h (Delete (ServerURL creds)) st))) as [[msg |] st2];
        reflexivity.
  - split; [| split].
    + apply run_Delete_Err; auto.
    + unfold Add. rewrite run_pbind, (run_Delete_Err _ _ _ _ Hs), Hs. reflexivity.
    + unfold Add. rewrite trace_pbind, (run_Delete_Err _ _ _ _ Hs), Hs.
      unfold Delete. rewrite Hs. reflexivity.
Qed.

(** C10 as stated fails: for the serverURL [""] the preliminary [Delete]
    returns an error, [Add] goes on to normalize the URL, and the add
    primitive is never invoked. *)
Lemma Add_ignores_Delete_counterexample :
  let creds := mkCredentials "" "alice" "s3cret" in
  run platform (Delete (ServerURL creds)) (working ∅)
  = (Some (errors_New "no hostname in URL"), working ∅)
  /\ run platform (Add "Docker Credentials" creds) (working ∅)
     = (Some (errors_New "no hostname in URL"), working ∅)
  /\ trace platform (Add "Docker Credentials" creds) (working ∅) = [].
Proof. repeat split. Qed.

(** With a URL that normalizes, the add primitive is invoked although the
    preliminary [Delete] failed, here with a platform failure. *)
Example Add_after_failed_Delete :
  let creds := mkCredentials "index.docker.io" "alice" "s3cret" in
  let kc := mkKeychain ∅ [Some "User interaction is not allowed."] in
  run platform (Delete (ServerURL creds)) kc
  = (Some (errors_New "User interaction is not allowed."), working ∅)
  /\ fst (run platform (Add "Docker Credentials" creds) kc) = None
  /\ trace platform (Add "Docker Credentials" creds) kc
     = [Invoked (keychain_delete (mkServer kSecProtocolTypeHTTPS "index.docker.io" 0 ""));
        Invoked (keychain_add (mkServer kSecProtocolTypeHTTPS "index.docker.io" 0 "")
                   "Docker Credentials" "alice" "s3cret")].
Proof. repeat split. Qed.

(** ** The loop of [List] *)

(** The value of a key after the loop: written by the last iteration that
    had this key, otherwise left as it was. *)
Lemma List_loop_lookup (P A : list string) k a : forall n i resp,
  List_loop P A i n resp !! k = Some a <->
    (k <> "0" /\ exists j, (i <= j < i + n)%nat /\ nth j P "" = k /\ nth j A "" = a
                           /\ forall j', (j < j' < i + n)%nat -> nth j' P "" <> k)
    \/ (resp !! k = Some a
        /\ forall j, (i <= j < i + n)%nat -> nth j P "" = k -> k = "0").
Proof.
  induction n as [| n IH]; intros i resp; simpl.
  - split.
    + intros H. right. split; [exact H | intros j Hj; lia].
    + intros [(_ & j & Hj & _) | [H _]]; [lia | exact H].
  - rewrite IH. split.
    + intros [(Hk & j & Hj & HP & HA & Hlast) | (Hr & Hno)].
      * left. split; [exact Hk |]. exists j. repeat split; auto; try lia.
        intros j' Hj'. apply Hlast. lia.
      * destruct (String.eqb_spec (nth i P "") "0") as [E | E].
        -- right. split; [exact Hr |]. intros j Hj HPj.
           destruct (decide (j = i)) as [-> | Hne]; [congruence |].
           apply (Hno j); [lia | exact HPj].
        -- destruct (decide (nth i P "" = k)) as [E2 | E2].
           ++ rewrite E2, lookup_insert_eq in Hr. injection Hr as Hr.
              left. split; [congruence |]. exists i. repeat split; auto; try lia.
              intros j' Hj' HP'. apply E. rewrite E2. apply (Hno j'); [lia | exact HP'].
           ++ rewrite lookup_insert_ne in Hr by exact E2.
              right. split; [exact Hr |]. intros j Hj HPj.
              destruct (decide (j = i)) as [-> | Hne]; [contradiction |].
              apply (Hno j); [lia | exact HPj].
    + intros [(Hk & j & Hj & HP & HA & Hlast) | (Hr & Hno)].
      * destruct (decide (j = i)) as [-> | Hne].
        -- right. split.
           ++ rewrite HP, (eqb_false_of_neq _ _ Hk), HA. apply lookup_insert_eq.
           ++ intros j' Hj' HP'. exfalso. apply (Hlast j'); [lia | exact HP'].
        -- left. split; [exact Hk |]. exists j. repeat split; auto; try lia.
           intros j' Hj'. apply Hlast. lia.
      * right. split.
        -- destruct (String.eqb_spec (nth i P "") "0") as [E | E]; [exact Hr |].
           rewrite lookup_insert_ne; [exact Hr |].
           intros E2. apply E. rewrite E2. apply (Hno i); [lia | exact E2].
        -- intros j Hj. apply Hno. lia.
Qed.

(** The keys after the loop: those it had, and every key other than ["0"]
    that an iteration met. *)
Lemma List_loop_is_Some (P A : list string) k : forall n i resp,
  is_Some (List_loop P A i n resp !! k) <->
    (k <> "0" /\ exists j, (i <= j < i + n)%nat /\ nth j P "" = k)
    \/ is_Some (resp !! k).
Proof.
  induction n as [| n IH]; intros i resp; simpl.
  - split; [auto |]. intros [(_ & j & Hj & _) | H]; [lia | exact H].
  - rewrite IH. split.
    + intros [(Hk & j & Hj & HP) | H].
      * left. split; [exact Hk |]. exists j. split; [lia | exact HP].
      * destruct (String.eqb_spec (nth i P "") "0") as [E | E]; [right; exact H |].
        destruct (decide (nth i P "" = k)) as [E2 | E2].
        -- left. split; [congruence |]. exists i. split; [lia | exact E2].
        -- rewrite lookup_insert_ne in H by exact E2. right. exact H.
    + intros [(Hk & j & Hj & HP) | H].
      * destruct (decide (j = i)) as [-> | Hne].
        -- right. rewrite HP, (eqb_false_of_neq _ _ Hk), lookup_insert_eq. eauto.
        -- left. split; [exact Hk |]. exists j. split; [lia | exact HP].
      * right. destruct (String.eqb_spec (nth i P "") "0") as [E | E]; [exact H |].
        destruct (decide (nth i P "" = k)) as [E2 | E2].
        -- rewrite E2, lookup_insert_eq. eauto.
        -- rewrite lookup_insert_ne by exact E2. exact H.
Qed.

Lemma nth_of_lookup (l : list string) j x : l !! j = Some x -> nth j l "" = x.
Proof. intros H. rewrite nth_lookup, H. reflexivity. Qed.

Lemma lookup_of_nth (l : list string) j : (j < length l)%nat -> l !! j = Some (nth j l "").
Proof.
  intros H. destruct (lookup_lt_is_Some_2 l j H) as [x Hx].
  rewrite (nth_of_lookup _ _ _ Hx). exact Hx.
Qed.

(** ** The claim on [List] *)

(** C8.  When the enumeration primitive succeeds with [listLen] keys and as
    many accounts, [List] succeeds with a map [resp] such that: every key
    other than ["0"] met in the enumeration is in [resp]; ["0"] is not; and
    [resp] maps [k] to [a] exactly when [a] is the account of the last pair
    whose key is [k].  Its values are accounts of the enumeration, nothing
    else. *)
Theorem List_collects CredsLabel K (h : handler K) st st' out :
  h _ (keychain_list (CString CredsLabel)) st = (inr out, st') ->
  length (paths out) = listLen out ->
  length (accts out) = listLen out ->
  exists resp : gmap string string,
    run h (List CredsLabel) st = (Ok resp, st')
    /\ (forall j k, paths out !! j = Some k -> k <> "0" -> is_Some (resp !! k))
    /\ resp !! "0" = None
    /\ (forall k a,
          resp !! k = Some a <->
          k <> "0" /\ exists j, paths out !! j = Some k /\ accts out !! j = Some a
                                /\ forall j', (j < j')%nat -> paths out !! j' <> Some k).
Proof.
  intros Hh HP HA. eexists. split; [| split; [| split]].
  - unfold List. simpl. rewrite Hh. reflexivity.
  - intros j k Hj Hk. apply List_loop_is_Some. left. split; [exact Hk |].
    exists j. split; [| apply nth_of_lookup; exact Hj].
    apply lookup_lt_Some in Hj. lia.
  - destruct (List_loop (paths out) (accts out) 0 (listLen out) ∅ !! "0") as [a |] eqn:E;
      [| reflexivity].
    apply List_loop_lookup in E as [(Hk & _) | (E & _)]; [congruence |].
    rewrite lookup_empty in E. discriminate.
  - intros k a. rewrite List_loop_lookup. split.
    + intros [(Hk & j & Hj & HPj & HAj & Hlast) | (E & _)].
      2: { rewrite lookup_empty in E. discriminate. }
      split; [exact Hk |]. exists j. split; [| split].
      * rewrite <- HPj. apply lookup_of_nth. lia.
      * rewrite <- HAj. apply lookup_of_nth. lia.
      * intros j' Hj' E. apply (Hlast j').
        -- apply lookup_lt_Some in E. lia.
        -- apply nth_of_lookup. exact E.
    + intros (Hk & j & HPj & HAj & Hlast). left. split; [exact Hk |].
      exists j. split; [apply lookup_lt_Some in HPj; lia |].
      split; [apply nth_of_lookup; exact HPj |].
      split; [apply nth_of_lookup; exact HAj |].
      intros j' Hj' E. apply (Hlast j'); [lia |].
      rewrite <- E. apply lookup_of_nth. lia.
Qed.

(** Witness of C8: an enumeration with a placeholder and a repeated key. *)
Lemma List_collects_witness :
  let out := mkListOut ["https://a.example/"; "0"; "https://b.example/"; "https://a.example/"]
                       ["alice"; "0"; "bob"; "carol"] 4 in
  exists resp : gmap string string,
    run (enumerating out) (List "Docker Credentials") tt = (Ok resp, tt)
    /\ is_Some (resp !! "https://b.example/")
    /\ resp !! "0" = None
    /\ resp !! "https://a.example/" = Some "carol".
Proof.
  intros out.
  destruct (List_collects "Docker Credentials" unit (enumerating out) tt tt out
              eq_refl eq_refl eq_refl) as (resp & Hrun & Hin & H0 & Hiff).
  exists resp. split; [exact Hrun |]. split; [| split; [exact H0 |]].
  - apply (Hin 2%nat); [reflexivity | discriminate].
  - apply Hiff. split; [discriminate |]. exists 3%nat.
    split; [reflexivity |]. split; [reflexivity |].
    intros j' Hj'. do 4 (destruct j' as [| j']; [lia |]). discriminate.
Defined.

(** ** The methods on the keychain model *)

Section Model.

Variable CredsLabel : string.




End Model.

(** One step of the platform model: a scripted failure, or the keychain
    serving the call. *)
Lemma platform_cases X (c : call X) kc :
  (exists msg, fst (platform X c kc) = failure X c msg
               /\ items (snd (platform X c kc)) = items kc)
  \/ (fst (platform X c kc) = fst (serve X c (items kc))
      /\ items (snd (platform X c kc)) = snd (serve X c (items kc))).
Proof.
  unfold platform. destruct (faults kc) as [| [msg |] rest].
  - right. destruct (serve X c (items kc)); auto.
  - left. exists msg. auto.
  - right. destruct (serve X c (items kc)); auto.
Qed.

(** A delete primitive that reports an error has removed nothing; one that
    reports none has removed the entry of the server. *)
Lemma platform_delete s kc :
  match fst (platform _ (keychain_delete s) kc) with
  | Some _ => items (snd (platform _ (keychain_delete s) kc)) = items kc
  | None => items (snd (platform _ (keychain_delete s) kc)) = delete s (items kc)
  end.
Proof.
  destruct (platform_cases _ (keychain_delete s) kc) as [(msg & -> & H) | [-> H]].
  - exact H.
  - rewrite H. simpl. destruct (items kc !! s); reflexivity.
Qed.

(** An add primitive that reports an error has stored nothing. *)
Lemma platform_add_failed s l u p kc msg :
  fst (platform _ (keychain_add s l u p) kc) = Some msg ->
  items (snd (platform _ (keychain_add s l u p) kc)) = items kc.
Proof.
  destruct (platform_cases _ (keychain_add s l u p) kc) as [(msg' & _ & H) | [-> H]].
  - intros _. exact H.
  - rewrite H. simpl. destruct (items kc !! s); [reflexivity | discriminate].
Qed.

(** Lookup and enumeration leave the entries alone. *)
Lemma platform_get s kc : items (snd (platform _ (keychain_get s) kc)) = items kc.
Proof.
  destruct (platform_cases _ (keychain_get s) kc) as [(msg & _ & H) | [_ H]];
    rewrite H; [reflexivity |].
  simpl. destruct (items kc !! s); reflexivity.
Qed.

Lemma platform_list l kc : items (snd (platform _ (keychain_list l) kc)) = items kc.
Proof.
  destruct (platform_cases _ (keychain_list l) kc) as [(msg & _ & H) | [_ H]];
    rewrite H; reflexivity.
Qed.

(** ** The claims on stored credentials *)







(** C9 (as amended).  On the keychain model, failing or not: a [Delete],
    a [Get] or a [List] that returns an error leaves the entries as they
    were; an [Add] that returns an error has stored nothing, and leaves
    the entries as its preliminary [Delete] left them, that is unchanged
    or without the entry of the server. *)
Theorem errors_keep_entries (kc : keychain) :
  (forall url e kc',
     run platform (Delete url) kc = (Some e, kc') -> items kc' = items kc)
  /\ (forall url e kc',
        run platform (Get url) kc = (Err e, kc') -> items kc' = items kc)
  /\ (forall CredsLabel e kc',
        run platform (List CredsLabel) kc = (Err e, kc') -> items kc' = items kc)
  /\ (forall CredsLabel creds e kc',
        run platform (Add CredsLabel creds) kc = (Some e, kc') ->
        items kc' = items (snd (run platform (Delete (ServerURL creds)) kc))
        /\ (items kc' = items kc
            \/ exists s, splitServer (ServerURL creds) = Ok s
                         /\ items kc' = delete s (items kc))).
Proof.
  split; [| split; [| split]].
  - intros url e kc' H. destruct (splitServer url) as [s | e'] eqn:Hs.
    + rewrite (run_Delete _ _ _ _ Hs) in H. injection H as He <-.
      pose proof (platform_delete s kc) as Hd.
      destruct (fst (platform _ (keychain_delete s) kc)); [exact Hd | discriminate].
    + rewrite (run_Delete_Err _ _ _ _ Hs) in H. injection H as _ <-. reflexivity.
  - intros url e kc' H. destruct (splitServer url) as [s | e'] eqn:Hs.
    + rewrite (run_Get _ _ _ _ Hs) in H. injection H as _ <-. apply platform_get.
    + unfold Get in H. rewrite Hs in H. injection H as _ <-. reflexivity.
  - intros l e kc' H. unfold List in H. simpl in H.
    pose proof (platform_list (CString l) kc) as Hl.
    destruct (platform _ (keychain_list (CString l)) kc) as [[msg | out] kc1];
      simpl in *; injection H as _ <-; exact Hl.
  - intros l creds e kc' H. destruct (splitServer (ServerURL creds)) as [s | e'] eqn:Hs.
    + rewrite (run_Add _ _ _ _ _ Hs) in H. simpl in H. injection H as He <-.
      rewrite (run_Delete _ _ _ _ Hs). simpl.
      set (kc1 := snd (platform _ (keychain_delete s) kc)) in *.
      assert (Hadd : items (snd (platform _ (keychain_add s (CString l)
                        (CString (Username creds)) (CString (Secret creds))) kc1))
                     = items kc1).
      { destruct (fst (platform _ (keychain_add s (CString l)
                    (CString (Username creds)) (CString (Secret creds))) kc1))
          as [msg |] eqn:E; [| discriminate].
        eapply platform_add_failed. exact E. }
      split; [exact Hadd |]. rewrite Hadd. subst kc1.
      pose proof (platform_delete s kc) as Hd.
      destruct (fst (platform _ (keychain_delete s) kc)); [left; exact Hd |].
      right. exists s. split; [reflexivity | exact Hd].
    + unfold Add in H. rewrite run_pbind, (run_Delete_Err _ _ _ _ Hs), Hs in H.
      simpl in H. injection H as _ <-.
      rewrite (run_Delete_Err _ _ _ _ Hs). simpl. auto.
Qed.

(** C9 as stated fails: the keychain holds a credential for the server,
    the preliminary [Delete] removes it, the add primitive then fails, and
    [Add] returns that error with the old credential gone. *)
Lemma errors_keep_entries_counterexample :
  let s := mkServer kSecProtocolTypeHTTPS "index.docker.io" 0 "" in
  let old := mkEntry "Docker Credentials" "alice" "s3cret" in
  let kc := mkKeychain {[ s := old ]} [None; Some "User interaction is not allowed."] in
  let creds := mkCredentials "index.docker.io" "alice" "new" in
  fst (run platform (Add "Docker Credentials" creds) kc)
  = Some (errors_New "User interaction is not allowed.")
  /\ items kc !! s = Some old
  /\ items (snd (run platform (Add "Docker Credentials" creds) kc)) !! s = None
  /\ fst (run platform (Get "index.docker.io")
            (snd (run platform (Add "Docker Credentials" creds) kc)))
     = Err credentials_errCredentialsNotFound.
Proof. repeat split. Qed.

(** * Further properties of the package *)

(** ** Where the typed not-found error comes from *)

(** X1.  Of [Add], [List] and [Get], only [Get] ever returns the typed
    not-found error, and it does so exactly when the URL normalizes and
    the lookup primitive fails with the message [errCredentialsNotFound]. *)
Theorem typed_error_provenance CredsLabel K (h : handler K) st :
  (forall creds,
     fst (run h (Add CredsLabel creds) st) <> Some credentials_errCredentialsNotFound)
  /\ fst (run h (List CredsLabel) st) <> Err credentials_errCredentialsNotFound
  /\ (forall url,
        fst (run h (Get url) st) = Err credentials_errCredentialsNotFound
        <-> exists s, splitServer url = Ok s
                      /\ fst (h _ (keychain_get s) st) = inl errCredentialsNotFound).
Proof.
  split; [| split].
  - intros creds. destruct (splitServer (ServerURL creds)) as [s | e] eqn:Hs.
    + rewrite (run_Add _ _ _ _ _ Hs). simpl.
      destruct (fst (h _ _ _)); simpl; discriminate.
    + unfold Add. rewrite run_pbind, (run_Delete_Err _ _ _ _ Hs), Hs. simpl.
      intros [= ->]. eapply splitServer_error; eauto.
  - unfold List. simpl.
    destruct (h _ (keychain_list (CString CredsLabel)) st) as [[msg | out] st'];
      simpl; discriminate.
  - intros url. destruct (splitServer url) as [s | e] eqn:Hs.
    + rewrite (run_Get _ _ _ _ Hs). simpl. split.
      * intros H. exists s. split; [reflexivity |].
        destruct (fst (h _ (keychain_get s) st)) as [msg | out]; [| discriminate].
        destruct (String.eqb msg errCredentialsNotFound) eqn:E; [| discriminate].
        apply String.eqb_eq in E. subst msg. reflexivity.
      * intros (s' & [= <-] & ->). reflexivity.
    + unfold Get. rewrite Hs. simpl. split.
      * intros [= ->]. exfalso. eapply splitServer_error; eauto.
      * intros (s' & [=] & _).
Qed.

(** ** The primitives a method invokes *)

(** X2.  [Get] and [Delete] invoke one primitive, the lookup or the delete
    of the normalized server, or none at all when the URL does not
    normalize; [List] invokes the enumeration once, with the label as a C
    string.  So [Get] and [List] never invoke a primitive that adds or
    deletes. *)
Theorem invoked_primitives CredsLabel K (h : handler K) st :
  (forall url,
     match splitServer url with
     | Ok s =>
         trace h (Get url) st = [Invoked (keychain_get s)]
         /\ trace h (Delete url) st = [Invoked (keychain_delete s)]
     | Err e =>
         trace h (Get url) st = [] /\ trace h (Delete url) st = []
         /\ run h (Get url) st = (Err e, st)
     end)
  /\ trace h (List CredsLabel) st = [Invoked (keychain_list (CString CredsLabel))].
Proof.
  split.
  - intros url. destruct (splitServer url) as [s | e] eqn:Hs.
    + split; [| apply trace_Delete; exact Hs].
      unfold Get. rewrite Hs. simpl.
      destruct (h _ (keychain_get s) st) as [[msg | out] st']; simpl; [| reflexivity].
      destruct (String.eqb msg errCredentialsNotFound); reflexivity.
    + unfold Get, Delete. rewrite Hs. auto.
  - unfold List. simpl.
    destruct (h _ (keychain_list (CString CredsLabel)) st) as [[msg | out] st'];
      reflexivity.
Qed.

(** ** What [splitServer] returns *)

Lemma CString_hasNUL s : hasNUL (CString s) = false.
Proof.
  induction s as [| c s IH]; simpl; [reflexivity |].
  destruct (Ascii.eqb c "000") eqn:E; simpl; [reflexivity |].
  rewrite E. exact IH.
Qed.

(** X5.  A server that [splitServer] returns is well formed for the C
    side: its port is in the range of an [unsigned int] and neither its
    host nor its path holds a NUL byte. *)
Theorem splitServer_well_formed s srv :
  splitServer s = Ok srv ->
  (0 <= port srv < 2 ^ 32)%Z /\ hasNUL (host srv) = false /\ hasNUL (path srv) = false.
Proof.
  intros H. apply splitServer_Ok_inv in H as (u & n & _ & _ & _ & _ & ->). simpl.
  split; [apply Z.mod_pos_bound; reflexivity |].
  split; apply CString_hasNUL.
Qed.

(** Witness of X5: a port that does not fit an [unsigned int] is reduced. *)
Lemma splitServer_well_formed_witness :
  splitServer "http://registry.example.com:4294967297/v2"
  = Ok (mkServer kSecProtocolTypeHTTP "registry.example.com:4294967297" 1 "/v2")
  /\ (0 <= 1 < 2 ^ 32)%Z.
Proof.
  split; [reflexivity |].
  apply (splitServer_well_formed "http://registry.example.com:4294967297/v2"
           (mkServer kSecProtocolTypeHTTP "registry.example.com:4294967297" 1 "/v2")
           eq_refl).
Defined.

(** ** Slashes in front of a serverURL *)

Lemma MatchString_slashes t : regexp.MatchString schemeRE ("//" ++ t) = true.
Proof.
  apply regexp_facts.MatchString_spec. exists "//", t. split; [reflexivity |].
  change "//" with ("" ++ "//"). constructor.
  - apply regexp.lang_alt_r. constructor.
  - change "//" with ("/" ++ "/"). constructor; constructor; reflexivity.
Qed.

(** X3.  For a serverURL that the pattern of [splitServer] does not match
    (no scheme prefix, no leading ["//"]), writing the ["//"] oneself
    changes nothing: the same server, or the same error. *)
Theorem splitServer_leading_slashes s :
  regexp.MatchString schemeRE s = false ->
  splitServer ("//" ++ s) = splitServer s.
Proof.
  intros H. unfold splitServer, prependSlashes.
  rewrite H, MatchString_slashes. reflexivity.
Qed.

(** Witness of X3: ["index.docker.io/v1/"]. *)
Lemma splitServer_leading_slashes_witness :
  splitServer "//index.docker.io/v1/" = splitServer "index.docker.io/v1/"
  /\ splitServer "index.docker.io/v1/"
     = Ok (mkServer kSecProtocolTypeHTTPS "index.docker.io" 0 "/v1/").
Proof.
  split; [| reflexivity].
  apply (splitServer_leading_slashes "index.docker.io/v1/"). reflexivity.
Defined.

(** ** The errors of [splitServer] *)

Lemma drop_succ n : forall s, Strings.drop (n + 1) s = Strings.drop 1 (Strings.drop n s).
Proof.
  induction n as [| n IH]; intros s; simpl; [reflexivity |].
  destruct s as [| c s]; simpl; [reflexivity |]. apply IH.
Qed.

(** The port that [url.Port] splits off is made of digits. *)
Lemma Port_all_digits u : url.all_digits (url.Port u) = true.
Proof.
  unfold url.Port, url.splitHostPort.
  destruct (Strings.LastIndex (url.Host u) ":") as [colon |].
  - destruct (url.validOptionalPort (Strings.drop colon (url.Host u))) eqn:Hv.
    + assert (Hp : url.all_digits (Strings.drop (colon + 1) (url.Host u)) = true).
      { rewrite drop_succ.
        destruct (Strings.drop colon (url.Host u)) as [| c r]; simpl in *;
          [reflexivity |].
        apply andb_true_iff in Hv as [_ Hv]. exact Hv. }
      destruct (_ && _); simpl; exact Hp.
    + destruct (_ && _); reflexivity.
  - destruct (_ && _); reflexivity.
Qed.

Lemma fast_digits_digits s : forall n,
  url.all_digits s = true -> exists m, strconv.fast_digits s n = Some m.
Proof.
  induction s as [| c s IH]; intros n H; simpl in *; [eauto |].
  apply andb_true_iff in H as [Hc Hs]. rewrite Hc. apply IH. exact Hs.
Qed.

Lemma ParseUint_loop_digits s : forall n,
  url.all_digits s = true -> strconv.ParseUint_loop s n <> strconv.uint_syntax.
Proof.
  induction s as [| c s IH]; intros n H; simpl in *; [discriminate |].
  apply andb_true_iff in H as [Hc Hs]. rewrite Hc. simpl.
  repeat case_match; try discriminate. apply IH. exact Hs.
Qed.

(** On a port made of digits, [Atoi] can only fail for the range, and only
    from 19 digits on. *)
Lemma Atoi_digits p :
  p <> "" -> url.all_digits p = true ->
  (exists n, strconv.Atoi p = Ok n)
  \/ (strconv.Atoi p = Err (strconv.rangeError strconv.fnAtoi p)
      /\ (19 <= String.length p)%nat).
Proof.
  intros Hne Hd. destruct p as [| c0 s1]; [congruence |].
  assert (Hc0 : is_digit c0 = true).
  { simpl in Hd. apply andb_true_iff in Hd as [H _]. exact H. }
  assert (Hm : Ascii.eqb c0 "-" = false).
  { destruct (Ascii.eqb_spec c0 "-") as [-> |]; [discriminate | reflexivity]. }
  assert (Hp : Ascii.eqb c0 "+" = false).
  { destruct (Ascii.eqb_spec c0 "+") as [-> |]; [discriminate | reflexivity]. }
  unfold strconv.Atoi.
  destruct ((0 <? String.length (String c0 s1))%nat
            && (String.length (String c0 s1) <? 19)%nat) eqn:Hlen.
  - left. rewrite Hm, Hp. simpl orb. cbv iota. simpl andb.
    destruct (fast_digits_digits (String c0 s1) 0 Hd) as [m ->]. eauto.
  - assert (Hlong : (19 <= String.length (String c0 s1))%nat).
    { apply andb_false_iff in Hlen as [H | H].
      - simpl in H. discriminate.
      - apply Nat.ltb_ge in H. exact H. }
    unfold strconv.ParseInt. rewrite Hm, Hp. simpl orb. cbv iota.
    unfold strconv.ParseUint.
    replace (String.eqb (String c0 s1) "") with false by reflexivity.
    pose proof (ParseUint_loop_digits (String c0 s1) 0 Hd) as Hns.
    destruct (strconv.ParseUint_loop (String c0 s1) 0) as [un | |];
      [| congruence | right; auto].
    simpl. destruct (un >=? 2 ^ 63)%Z; simpl; [right; auto | left; eauto].
Qed.

Lemma Parse_error_shape s e :
  url.Parse s = Err e -> exists raw err, e = url_Error "parse" raw err.
Proof.
  unfold url.Parse. intros H. repeat case_match; simplify_eq; eauto.
Qed.

(** X9.  Every error of [splitServer] is one of four: the error of
    [url.Parse]; the unsupported scheme, named in the message; the missing
    host name; or [Atoi]'s range error on a port of 19 digits or more.  A
    port that is not a number never reaches [Atoi]. *)
Theorem splitServer_errors s e :
  splitServer s = Err e ->
  (exists raw err, e = url_Error "parse" raw err)
  \/ (exists u, url.Parse (prependSlashes s) = Ok u
                /\ e = errors_New ("unsupported scheme: " ++ url.Scheme u))
  \/ e = errors_New "no hostname in URL"
  \/ (exists p, e = strconv_NumError "Atoi" p strconv.ErrRange
                /\ (19 <= String.length p)%nat /\ url.all_digits p = true).
Proof.
  intros H. destruct (url.Parse (prependSlashes s)) as [u |] eqn:Hp.
  - rewrite (splitServer_parsed _ _ Hp) in H.
    destruct (negb _ && negb _ && negb _).
    { injection H as <-. right. left. eauto. }
    destruct (String.eqb (url.Hostname u) "").
    { injection H as <-. auto. }
    destruct (String.eqb_spec (url.Port u) "") as [E | E]; simpl in H; [discriminate |].
    destruct (Atoi_digits _ E (Port_all_digits u)) as [[n Hn] | [He Hlen]].
    + rewrite Hn in H. discriminate.
    + rewrite He in H. injection H as <-. do 3 right.
      exists (url.Port u). split; [reflexivity |]. split; [exact Hlen |].
      apply Port_all_digits.
  - unfold splitServer in H. rewrite Hp in H. injection H as <-.
    left. eapply Parse_error_shape; eauto.
Qed.

(** Witness of X9: a port of twenty digits. *)
Lemma splitServer_errors_witness :
  splitServer "host:99999999999999999999"
  = Err (strconv_NumError "Atoi" "99999999999999999999" strconv.ErrRange)
  /\ ((exists raw err,
         strconv_NumError "Atoi" "99999999999999999999" strconv.ErrRange
         = url_Error "parse" raw err)
      \/ (exists u, url.Parse (prependSlashes "host:99999999999999999999") = Ok u
                    /\ strconv_NumError "Atoi" "99999999999999999999" strconv.ErrRange
                       = errors_New ("unsupported scheme: " ++ url.Scheme u))
      \/ strconv_NumError "Atoi" "99999999999999999999" strconv.ErrRange
         = errors_New "no hostname in URL"
      \/ (exists p, strconv_NumError "Atoi" "99999999999999999999" strconv.ErrRange
                    = strconv_NumError "Atoi" p strconv.ErrRange
                    /\ (19 <= String.length p)%nat /\ url.all_digits p = true)).
Proof.
  split; [reflexivity |].
  apply (splitServer_errors "host:99999999999999999999"). reflexivity.
Defined.

(** ** How many entries [List] returns *)

Lemma List_loop_size (P A : list string) : forall n i resp,
  (size (List_loop P A i n resp) <= size resp + n)%nat.
Proof.
  induction n as [| n IH]; intros i resp; simpl; [lia |].
  etransitivity; [apply IH |].
  destruct (String.eqb (nth i P "") "0"); [lia |].
  rewrite map_size_insert. destruct (resp !! nth i P ""); simpl; lia.
Qed.

(** X7.  When the enumeration succeeds, [List] returns at most [listLen]
    entries.  When moreover the [listLen] keys are distinct and none is
    ["0"], it returns exactly [listLen] entries, every key with the
    account of its own pair. *)
Theorem List_size CredsLabel K (h : handler K) st st' out :
  h _ (keychain_list (CString CredsLabel)) st = (inr out, st') ->
  exists resp : gmap string string,
    run h (List CredsLabel) st = (Ok resp, st')
    /\ (size resp <= listLen out)%nat
    /\ (length (paths out) = listLen out ->
        length (accts out) = listLen out ->
        NoDup (paths out) ->
        "0" ∉ paths out ->
        size resp = listLen out
        /\ forall j k a, paths out !! j = Some k -> accts out !! j = Some a ->
                         resp !! k = Some a).
Proof.
  intros Hh. eexists. split; [| split].
  - unfold List. simpl. rewrite Hh. reflexivity.
  - pose proof (List_loop_size (paths out) (accts out) (listLen out) 0 ∅) as H.
    rewrite map_size_empty in H. exact H.
  - intros HP HA Hnd H0. split.
    + assert (Hdom : dom (List_loop (paths out) (accts out) 0 (listLen out) ∅)
                     = (list_to_set (paths out) : gset string)).
      { apply set_eq. intros k.
        rewrite elem_of_dom, elem_of_list_to_set, List_loop_is_Some, list_elem_of_lookup.
        split.
        - intros [(_ & j & Hj & Hk) | [a Ha]].
          + exists j. rewrite <- Hk. apply lookup_of_nth. lia.
          + rewrite lookup_empty in Ha. discriminate.
        - intros [j Hj]. left. split.
          + intros ->. apply H0. apply list_elem_of_lookup. eauto.
          + exists j. split; [apply lookup_lt_Some in Hj; lia |].
            apply nth_of_lookup. exact Hj. }
      rewrite <- (size_dom (D := gset string)), Hdom, (size_list_to_set _ Hnd).
      exact HP.
    + intros j k a Hj Ha. apply List_loop_lookup. left. split.
      * intros ->. apply H0. apply list_elem_of_lookup. eauto.
      * exists j. split; [apply lookup_lt_Some in Hj; lia |].
        split; [apply nth_of_lookup; exact Hj |].
        split; [apply nth_of_lookup; exact Ha |].
        intros j' Hj' E.
        assert (Hj'' : paths out !! j' = Some k).
        { rewrite <- E. apply lookup_of_nth. lia. }
        pose proof (NoDup_lookup _ _ _ _ Hnd Hj Hj''). lia.
Qed.

(** Witness of X7: two pairs with distinct keys. *)
Lemma List_size_witness :
  let out := mkListOut ["https://a.example/"; "https://b.example/"]
                       ["alice"; "bob"] 2 in
  exists resp : gmap string string,
    run (enumerating out) (List "Docker Credentials") tt = (Ok resp, tt)
    /\ (size resp <= 2)%nat
    /\ size resp = 2%nat
    /\ resp !! "https://b.example/" = Some "bob".
Proof.
  intros out.
  destruct (List_size "Docker Credentials" unit (enumerating out) tt tt out eq_refl)
    as (resp & Hrun & Hsize & Hall).
  destruct (Hall eq_refl eq_refl) as [Hexact Hpairs].
  - apply (bool_decide_unpack _). vm_compute. reflexivity.
  - apply (bool_decide_unpack _). vm_compute. reflexivity.
  - exists resp. split; [exact Hrun |]. split; [exact Hsize |].
    split; [exact Hexact |]. apply (Hpairs 1%nat); reflexivity.
Defined.

(** ** The strings the pattern of [splitServer] matches *)

Lemma lang_star_class p w :
  regexp.lang (regexp.Star (regexp.Class p)) w <-> all_chars p w = true.
Proof.
  split.
  - intros H. remember (regexp.Star (regexp.Class p)) as r eqn:Hr.
    induction H; try discriminate; [reflexivity |].
    injection Hr as ->.
    apply regexp_facts.lang_class_inv in H as (c & -> & Hc).
    simpl. rewrite Hc. simpl. apply IHlang2. reflexivity.
  - induction w as [| c w IH]; simpl; intros H; [constructor |].
    apply andb_true_iff in H as [Hc Hw].
    change (String c w) with (String c "" ++ w).
    constructor; [constructor; exact Hc | apply IH; exact Hw].
Qed.

Lemma lang_scheme_colon w :
  regexp.lang scheme_colon w <->
  exists c run, w = String c (run ++ ":") /\ is_letter c = true
                /\ run <> "" /\ all_chars scheme_char run = true.
Proof.
  split.
  - intros H. apply regexp_facts.lang_seq_inv in H as (w1 & w2 & -> & H1 & H2).
    apply regexp_facts.lang_class_inv in H1 as (c & -> & Hc).
    apply regexp_facts.lang_seq_inv in H2 as (w3 & w4 & -> & H3 & H4).
    apply regexp_facts.lang_lit in H4 as ->.
    apply regexp_facts.lang_seq_inv in H3 as (w5 & w6 & -> & H5 & H6).
    apply regexp_facts.lang_class_inv in H5 as (d & -> & Hd).
    apply lang_star_class in H6.
    exists c, (String d w6). simpl. repeat split; auto.
    rewrite Hd, H6. reflexivity.
  - intros (c & run & -> & Hc & Hne & Hrun).
    destruct run as [| d run]; [congruence |]. simpl in Hrun.
    apply andb_true_iff in Hrun as [Hd Hrun].
    change (String c (String d run ++ ":")) with (String c "" ++ (String d run ++ ":")).
    constructor; [constructor; exact Hc |].
    constructor; [| constructor; reflexivity].
    change (String d run) with (String d "" ++ run).
    constructor; [constructor; exact Hd | apply lang_star_class; exact Hrun].
Qed.

Lemma length_append (a b : string) :
  String.length (a ++ b) = (String.length a + String.length b)%nat.
Proof. induction a; simpl; congruence. Qed.

Lemma append_String_neq (a s : string) : a <> "" -> a ++ s <> s.
Proof.
  intros Ha E. apply (f_equal String.length) in E.
  rewrite length_append in E. destruct a; [congruence | simpl in E; lia].
Qed.

(** X8.  [splitServer] keeps a serverURL as it is exactly when it starts
    with ["//"], or with a letter, then one or more of the characters
    [-+.a-zA-Z0-9], then ["://"]; to any other serverURL (a one-letter
    scheme included) it prepends ["//"]. *)
Theorem prependSlashes_cases s :
  (prependSlashes s = s \/ prependSlashes s = "//" ++ s)
  /\ (prependSlashes s = s <->
      (exists t, s = "//" ++ t)
      \/ exists c run t, s = String c (run ++ "://" ++ t) /\ is_letter c = true
                         /\ run <> "" /\ all_chars scheme_char run = true).
Proof.
  assert (Hm : regexp.MatchString schemeRE s = true <->
               (exists t, s = "//" ++ t)
               \/ exists c run t, s = String c (run ++ "://" ++ t) /\ is_letter c = true
                                  /\ run <> "" /\ all_chars scheme_char run = true).
  { rewrite regexp_facts.MatchString_spec. split.
    - intros (p & q & -> & H).
      apply regexp_facts.lang_seq_inv in H as (w1 & w2 & -> & H1 & H2).
      apply lang_slashes in H2 as ->.
      apply regexp_facts.lang_alt_inv in H1 as [H1 | H1].
      + right. apply lang_scheme_colon in H1 as (c & run & -> & Hc & Hne & Hrun).
        exists c, run, q. split; [| auto]. simpl. f_equal.
        rewrite !append_assoc_string. reflexivity.
      + left. apply regexp_facts.lang_eps_inv in H1 as ->. exists q. reflexivity.
    - intros [[t ->] | (c & run & t & -> & Hc & Hne & Hrun)].
      + exists "//", t. split; [reflexivity |].
        change "//" with ("" ++ "//"). constructor.
        * apply regexp.lang_alt_r. constructor.
        * change "//" with ("/" ++ "/"). constructor; constructor; reflexivity.
      + exists (String c (run ++ ":") ++ "//"), t. split.
        * simpl. f_equal. rewrite !append_assoc_string. reflexivity.
        * constructor.
          -- apply regexp.lang_alt_l. apply lang_scheme_colon.
             exists c, run. auto.
          -- change "//" with ("/" ++ "/"). constructor; constructor; reflexivity. }
  unfold prependSlashes.
  destruct (regexp.MatchString schemeRE s) eqn:E; simpl.
  - split; [left; reflexivity |]. split; [intros _; apply Hm; reflexivity | reflexivity].
  - split; [right; reflexivity |]. split.
    + intros H. exfalso. revert H. apply (append_String_neq "//" s). discriminate.
    + intros H. apply Hm in H. discriminate.
Qed.

(** ** An explicit scheme in front of a serverURL *)

Lemma HasPrefix_take t n :
  Strings.HasPrefix t "/" = false -> Strings.HasPrefix (Strings.take n t) "/" = false.
Proof.
  unfold Strings.HasPrefix.
  destruct t as [| c t]; [destruct n; reflexivity |].
  destruct n as [| n]; [reflexivity |].
  change (String.prefix "/" (String c t))
    with (if ascii_dec "/" c then String.prefix "" t else false).
  change (String.prefix "/" (Strings.take (S n) (String c t)))
    with (if ascii_dec "/" c then String.prefix "" (Strings.take n t) else false).
  destruct (ascii_dec "/" c); [| reflexivity].
  destruct t; intros H; discriminate H.
Qed.

(** What [parse] keeps of ["//" ++ t] after it has cut the query off. *)
Lemma query_cut_shape t :
  Strings.HasPrefix t "/" = false ->
  exists t' fq rq,
    (if Strings.HasSuffix ("//" ++ t) "?" && (Strings.CountByte ("//" ++ t) "?" =? 1)%nat
     then (Strings.take (String.length ("//" ++ t) - 1) ("//" ++ t), true, "")
     else let '(before, after, _) := Strings.Cut ("//" ++ t) "?" in
          (before, false, after))
    = ("//" ++ t', fq, rq)
    /\ Strings.HasPrefix t' "/" = false.
Proof.
  intros Ht.
  destruct (Strings.HasSuffix ("//" ++ t) "?" && (Strings.CountByte ("//" ++ t) "?" =? 1)%nat)
    eqn:E.
  - destruct t as [| c t0]; [discriminate |].
    exists (Strings.take (String.length t0) (String c t0)), true, "".
    split; [| apply HasPrefix_take; exact Ht].
    simpl. reflexivity.
  - unfold Strings.Cut. simpl.
    destruct (Strings.Index t "?") as [i |]; simpl.
    + eexists (Strings.take i t), _, _. split; [reflexivity |].
      apply HasPrefix_take; exact Ht.
    + exists t, false, "". auto.
Qed.

Lemma Cut_slashes_prefix t :
  Strings.HasPrefix t "/" = false ->
  exists b frag found,
    Strings.Cut ("//" ++ t) "#" = ("//" ++ b, frag, found)
    /\ Strings.HasPrefix b "/" = false.
Proof.
  intros Ht. unfold Strings.Cut. simpl.
  destruct (Strings.Index t "#") as [i |]; simpl.
  - eexists (Strings.take i t), _, _. split; [reflexivity |].
    apply HasPrefix_take; exact Ht.
  - exists t, "", false. auto.
Qed.

Section ExplicitScheme.

(** A scheme [sch], standing for ["http"] and ["https"]. *)
Variable sch : string.
Hypothesis sch_scheme : forall t, url.getScheme (sch ++ "://" ++ t) = Ok (sch, "//" ++ t).
Hypothesis sch_lower : Strings.ToLower sch = sch.
Hypothesis sch_not_empty : String.eqb sch "" = false.
Hypothesis sch_CTL : forall t,
  url.stringContainsCTLByte (sch ++ "://" ++ t) = url.stringContainsCTLByte ("//" ++ t).
Hypothesis sch_not_star : forall t, String.eqb (sch ++ "://" ++ t) "*" = false.
Hypothesis sch_Cut : forall t b frag found,
  Strings.Cut ("//" ++ t) "#" = ("//" ++ b, frag, found) ->
  Strings.Cut (sch ++ "://" ++ t) "#" = (sch ++ "://" ++ b, frag, found).

Lemma parse_explicit_scheme t :
  Strings.HasPrefix t "/" = false ->
  url.parse (sch ++ "://" ++ t)
  = match url.parse ("//" ++ t) with
    | Ok u => Ok (withScheme sch u)
    | Err e => Err e
    end.
Proof.
  intros Ht. unfold url.parse.
  rewrite sch_CTL, sch_scheme, sch_not_star.
  replace (url.getScheme ("//" ++ t)) with (Ok ("", "//" ++ t)) by reflexivity.
  destruct (url.stringContainsCTLByte ("//" ++ t)); [reflexivity |].
  replace (String.eqb ("//" ++ t) "*") with false by reflexivity.
  cbv beta iota zeta.
  destruct (query_cut_shape t Ht) as (t' & fq & rq & -> & Ht').
  rewrite sch_lower, sch_not_empty.
  replace (Strings.ToLower "") with "" by reflexivity.
  replace (Strings.HasPrefix ("//" ++ t') "/") with true by reflexivity.
  replace (Strings.HasPrefix ("//" ++ t') "//") with true
    by (destruct t'; reflexivity).
  replace (Strings.HasPrefix ("//" ++ t') "///") with (Strings.HasPrefix t' "/")
    by reflexivity.
  rewrite Ht'. simpl negb. simpl andb. simpl orb. cbv iota.
  destruct (Strings.Index (Strings.drop 2 ("//" ++ t')) "/") as [i |];
    (destruct (url.parseAuthority _) as [[user host0] |]; [| reflexivity]);
    (destruct (url.unescape _ url.encodePath); reflexivity).
Qed.

Lemma Parse_explicit_scheme t :
  Strings.HasPrefix t "/" = false ->
  match url.Parse ("//" ++ t) with
  | Ok u => url.Parse (sch ++ "://" ++ t) = Ok (withScheme sch u)
  | Err _ => is_ok (url.Parse (sch ++ "://" ++ t)) = false
  end.
Proof.
  intros Ht. unfold url.Parse.
  destruct (Cut_slashes_prefix t Ht) as (b & frag & found & HC & Hb).
  rewrite (sch_Cut _ _ _ _ HC), HC, (parse_explicit_scheme b Hb).
  destruct (url.parse ("//" ++ b)) as [u |]; [| reflexivity].
  destruct (String.eqb frag ""); [reflexivity |].
  unfold url.setFragment, withScheme. simpl.
  destruct (url.unescape frag url.encodeFragment); reflexivity.
Qed.

(** [splitServer] on both forms, when the form without scheme parses. *)
Lemma splitServer_explicit_scheme_parsed s u :
  Strings.HasPrefix s "/" = false ->
  prependSlashes s = "//" ++ s ->
  prependSlashes (sch ++ "://" ++ s) = sch ++ "://" ++ s ->
  sch = "http" \/ sch = "https" ->
  url.Parse ("//" ++ s) = Ok u ->
  exists r : result Z,
    splitServer s
    = (if String.eqb (url.Hostname u) "" then Err (errors_New "no hostname in URL")
       else match r with
            | Ok n => Ok (mkServer kSecProtocolTypeHTTPS (CString (url.Host u))
                            (C_uint n) (CString (url.Path u)))
            | Err e => Err e
            end)
    /\ splitServer (sch ++ "://" ++ s)
       = (if String.eqb (url.Hostname u) "" then Err (errors_New "no hostname in URL")
          else match r with
               | Ok n => Ok (mkServer (if String.eqb sch "http" then kSecProtocolTypeHTTP
                                       else kSecProtocolTypeHTTPS)
                               (CString (url.Host u)) (C_uint n) (CString (url.Path u)))
               | Err e => Err e
               end).
Proof.
  intros Hs Hp1 Hp2 Hsch Hu.
  pose proof (Parse_explicit_scheme s Hs) as Hu'. rewrite Hu in Hu'.
  rewrite <- Hp1 in Hu. rewrite <- Hp2 in Hu'.
  rewrite (splitServer_parsed _ _ Hu), (splitServer_parsed _ _ Hu').
  rewrite Hp1 in Hu. apply Parse_slashes in Hu. rewrite Hu.
  exists (if negb (String.eqb (url.Port u) "") then strconv.Atoi (url.Port u)
          else Ok 0%Z).
  split; [reflexivity |].
  unfold withScheme, url.Hostname, url.Port. simpl.
  destruct Hsch as [-> | ->]; reflexivity.
Qed.

End ExplicitScheme.

Lemma Cut_http t b frag found :
  Strings.Cut ("//" ++ t) "#" = ("//" ++ b, frag, found) ->
  Strings.Cut ("http://" ++ t) "#" = ("http://" ++ b, frag, found).
Proof.
  unfold Strings.Cut. simpl.
  destruct (Strings.Index t "#") as [i |]; simpl; intros [= <- <- <-]; reflexivity.
Qed.

Lemma Cut_https t b frag found :
  Strings.Cut ("//" ++ t) "#" = ("//" ++ b, frag, found) ->
  Strings.Cut ("https://" ++ t) "#" = ("https://" ++ b, frag, found).
Proof.
  unfold Strings.Cut. simpl.
  destruct (Strings.Index t "#") as [i |]; simpl; intros [= <- <- <-]; reflexivity.
Qed.

Lemma MatchString_explicit_scheme c run t :
  is_letter c = true -> run <> "" -> all_chars scheme_char run = true ->
  regexp.MatchString schemeRE (String c run ++ "://" ++ t) = true.
Proof.
  intros Hc Hne Hrun. apply regexp_facts.MatchString_spec.
  exists (String c (run ++ ":") ++ "//"), t. split.
  - simpl. f_equal. rewrite !append_assoc_string. reflexivity.
  - constructor.
    + apply regexp.lang_alt_l. apply lang_scheme_colon. exists c, run. auto.
    + change "//" with ("/" ++ "/"). constructor; constructor; reflexivity.
Qed.

(** X4.  For a serverURL [s] without scheme prefix and without leading
    slash: with ["https://"] in front it normalizes to the very same
    server, and with ["http://"] in front to the same host, port and path
    under the HTTP protocol; each form normalizes exactly when [s] does. *)
Theorem splitServer_explicit_scheme s :
  Strings.HasPrefix s "/" = false ->
  hasSchemePrefix s = false ->
  (forall srv, splitServer ("https://" ++ s) = Ok srv <-> splitServer s = Ok srv)
  /\ (forall srv',
        splitServer ("http://" ++ s) = Ok srv' <->
        exists srv, splitServer s = Ok srv
                    /\ srv' = mkServer kSecProtocolTypeHTTP (host srv) (port srv) (path srv)).
Proof.
  intros Hs Hns.
  assert (Hp1 : prependSlashes s = "//" ++ s).
  { unfold prependSlashes.
    destruct (regexp.MatchString schemeRE s) eqn:E; [| reflexivity].
    apply schemeRE_match in E as [E | [t ->]]; [congruence | discriminate]. }
  assert (Hp2 : prependSlashes ("https://" ++ s) = "https://" ++ s).
  { unfold prependSlashes.
    assert (Hm : regexp.MatchString schemeRE ("https://" ++ s) = true)
      by (apply (MatchString_explicit_scheme "h" "ttps" s);
          [reflexivity | discriminate | reflexivity]).
    rewrite Hm. reflexivity. }
  assert (Hp3 : prependSlashes ("http://" ++ s) = "http://" ++ s).
  { unfold prependSlashes.
    assert (Hm : regexp.MatchString schemeRE ("http://" ++ s) = true)
      by (apply (MatchString_explicit_scheme "h" "ttp" s);
          [reflexivity | discriminate | reflexivity]).
    rewrite Hm. reflexivity. }
  destruct (url.Parse ("//" ++ s)) as [u |] eqn:Hu.
  - destruct (splitServer_explicit_scheme_parsed "https"
                ltac:(reflexivity) ltac:(reflexivity) ltac:(reflexivity)
                ltac:(reflexivity) ltac:(reflexivity) Cut_https
                s u Hs Hp1 Hp2 ltac:(auto) Hu) as (r & Hr & Hr1).
    destruct (splitServer_explicit_scheme_parsed "http"
                ltac:(reflexivity) ltac:(reflexivity) ltac:(reflexivity)
                ltac:(reflexivity) ltac:(reflexivity) Cut_http
                s u Hs Hp1 Hp3 ltac:(auto) Hu) as (r' & Hr' & Hr2).
    change ("https" ++ "://" ++ s) with ("https://" ++ s) in Hr1.
    change ("http" ++ "://" ++ s) with ("http://" ++ s) in Hr2.
    rewrite Hr in Hr'. split.
    + intros srv. rewrite Hr1, Hr. reflexivity.
    + intros srv'. rewrite Hr2, Hr.
      destruct (String.eqb (url.Hostname u) "").
      * split; [discriminate | intros (srv & [=] & _)].
      * destruct r as [n | e], r' as [n' | e']; try discriminate.
        -- injection Hr' as <-. split.
           ++ intros [= <-]. eexists. split; reflexivity.
           ++ intros (srv & [= <-] & ->). reflexivity.
        -- split; [discriminate | intros (srv & [=] & _)].
  - assert (H0 : is_ok (splitServer s) = false).
    { unfold splitServer. rewrite Hp1, Hu. reflexivity. }
    pose proof (Parse_explicit_scheme "https"
                  ltac:(reflexivity) ltac:(reflexivity) ltac:(reflexivity)
                  ltac:(reflexivity) ltac:(reflexivity) Cut_https s Hs) as H1.
    pose proof (Parse_explicit_scheme "http"
                  ltac:(reflexivity) ltac:(reflexivity) ltac:(reflexivity)
                  ltac:(reflexivity) ltac:(reflexivity) Cut_http s Hs) as H2.
    rewrite Hu in H1, H2.
    change ("https" ++ "://" ++ s) with ("https://" ++ s) in H1.
    change ("http" ++ "://" ++ s) with ("http://" ++ s) in H2.
    assert (H1' : is_ok (splitServer ("https://" ++ s)) = false).
    { unfold splitServer. rewrite Hp2.
      destruct (url.Parse ("https://" ++ s)); [discriminate | reflexivity]. }
    assert (H2' : is_ok (splitServer ("http://" ++ s)) = false).
    { unfold splitServer. rewrite Hp3.
      destruct (url.Parse ("http://" ++ s)); [discriminate | reflexivity]. }
    split.
    + intros srv. split; intros H; rewrite H in *; discriminate.
    + intros srv'. split.
      * intros H. rewrite H in H2'. discriminate.
      * intros (srv & H & _). rewrite H in H0. discriminate.
Qed.

(** Witness of X4: ["index.docker.io/v1/"]. *)
Lemma splitServer_explicit_scheme_witness :
  splitServer "https://index.docker.io/v1/"
  = Ok (mkServer kSecProtocolTypeHTTPS "index.docker.io" 0 "/v1/")
  /\ splitServer "http://index.docker.io/v1/"
     = Ok (mkServer kSecProtocolTypeHTTP "index.docker.io" 0 "/v1/").
Proof.
  pose proof (splitServer_explicit_scheme "index.docker.io/v1/" eq_refl eq_refl)
    as [H1 H2].
  split.
  - apply H1. vm_compute. reflexivity.
  - apply H2. exists (mkServer kSecProtocolTypeHTTPS "index.docker.io" 0 "/v1/").
    split; vm_compute; reflexivity.
Defined.
